(** * BuildingAQuasiAgent.py: the three-step function generator

    A shallow embedding of [src/BuildingAQuasiAgent.py] and the
    properties of its code extractor, turn formatter and conversation
    driver.

    Python [str] values are sequences of Unicode code points: a character
    is a code point in [N], a string a list of them.  The string methods
    the program calls ([in], [split], [strip], [startswith], slicing) are
    given their CPython meaning on such lists. *)

From Stdlib Require Import NArith List Bool Ascii String DecimalString Lia.
From stdpp Require Import base list gmap.

Import ListNotations.
Local Open Scope list_scope.

(** ** Python strings *)

Module PyStr.

Definition char := N.
Definition str := list N.

(** An ASCII literal of the source as a list of code points. *)
Definition lit (s : string) : str :=
  List.map N_of_ascii (list_ascii_of_string s).

Definition nl : char := 10%N.

(** [ch.isspace()]: CPython's [_PyUnicode_IsWhitespace]. *)
Definition isspace (c : char) : bool :=
  ((9 <=? c) && (c <=? 13) || (28 <=? c) && (c <=? 32)
   || (c =? 133) || (c =? 160) || (c =? 5760)
   || (8192 <=? c) && (c <=? 8202)
   || (c =? 8232) || (c =? 8233) || (c =? 8239) || (c =? 8287)
   || (c =? 12288))%N.

(** [s.startswith(prefix)] *)
Fixpoint startswith (s prefix : str) {struct prefix} : bool :=
  match prefix, s with
  | [], _ => true
  | _ :: _, [] => false
  | p :: prefix', c :: s' => (c =? p)%N && startswith s' prefix'
  end.

(** [sub in s] *)
Fixpoint str_in (sub s : str) : bool :=
  startswith s sub ||
  match s with
  | [] => false
  | _ :: s' => str_in sub s'
  end.

Definition cons_head (c : char) (parts : list str) : list str :=
  match parts with
  | [] => [[c]]
  | p :: ps => (c :: p) :: ps
  end.

(** [s.split(sep)] for a non-empty [sep]: the text is scanned from the
    left, every occurrence of [sep] found ends the current part and the
    scan resumes behind it ([skip] counts the characters of a matched
    separator still to be passed over). *)
Fixpoint split_skip (sep : str) (skip : nat) (s : str) : list str :=
  match s with
  | [] => [[]]
  | c :: s' =>
      match skip with
      | S k => split_skip sep k s'
      | O =>
          if startswith s sep
          then [] :: split_skip sep (length sep - 1) s'
          else cons_head c (split_skip sep 0 s')
      end
  end.

Definition split (s sep : str) : list str := split_skip sep 0 s.

(** [sep.join(parts)] *)
Fixpoint join (sep : str) (parts : list str) : str :=
  match parts with
  | [] => []
  | p :: ps =>
      match ps with
      | [] => p
      | _ :: _ => p ++ sep ++ join sep ps
      end
  end.

Fixpoint dropwhile (f : char -> bool) (s : str) : str :=
  match s with
  | [] => []
  | c :: s' => if f c then dropwhile f s' else s
  end.

(** The same from the right end. *)
Definition rdropwhile (f : char -> bool) (s : str) : str :=
  rev (dropwhile f (rev s)).

Definition lstrip (s : str) : str := dropwhile isspace s.
Definition rstrip (s : str) : str := rdropwhile isspace s.

(** [s.strip()] *)
Definition strip (s : str) : str := rstrip (lstrip s).

(** [s.strip(chars)] *)
Definition strip_chars (chars s : str) : str :=
  let f c := existsb (N.eqb c) chars in
  rdropwhile f (dropwhile f s).

(** [s.replace(old, new)] for one-character [old] and [new]. *)
Definition replace_char (old new : char) (s : str) : str :=
  List.map (fun c => if (c =? old)%N then new else c) s.

(** [c * n] *)
Definition repeat_char (c : char) (n : nat) : str := repeat c n.

(** [str(n)] for a natural number. *)
Definition str_of_nat (n : nat) : str :=
  lit (NilEmpty.string_of_uint (Nat.to_uint n)).

End PyStr.

Import PyStr.

(** ** Results of fallible code *)

(** An instance of [Exception]; [exn_text] is its [str(e)]. *)
Record exn := Exn { exn_text : str }.

Inductive outcome (A : Type) : Type :=
| Ok (a : A)
| Raise (e : exn).
Arguments Ok {A} a.
Arguments Raise {A} e.

Definition obind {A B} (o : outcome A) (k : A -> outcome B) : outcome B :=
  match o with
  | Ok a => k a
  | Raise e => Raise e
  end.

(** [l[i]]: an [IndexError] when [i] is out of range. *)
Definition index {A} (l : list A) (i : nat) : outcome A :=
  match l !! i with
  | Some x => Ok x
  | None => Raise (Exn (lit "list index out of range"))
  end.

(** ** Code extractor and turn formatter *)

Definition fence : str := Eval cbv in lit "```".
Definition python : str := Eval cbv in lit "python".

Definition extract_code_block (response : str) : outcome str :=
  if str_in fence response then
    let parts := split response fence in
    if 3 <=? length parts then
      obind (index parts 1) (fun part =>
        let code_block := strip part in
        if startswith code_block python
        then Ok (strip (drop 6 code_block))
        else Ok code_block)
    else Ok (strip response)
  else Ok (strip response).

Definition create_clean_assistant_response (code : str) : str :=
  fence ++ python ++ [nl] ++ code ++ [nl] ++ fence.

(** ** The world the driver runs in *)

Inductive role := system | user | assistant.

Definition role_name (r : role) : str :=
  match r with
  | system => lit "system"
  | user => lit "user"
  | assistant => lit "assistant"
  end.

Record message := Message { msg_role : role; content : str }.

(** The arguments of one [completion(...)] call. *)
Record request := Request {
  model : str;
  req_messages : list message;
  max_tokens : N }.

(** What [open(filename, 'w')] followed by [f.write(code)] can do. *)
Inductive write_outcome :=
| Written
| OpenFailed (e : exn)
| WriteFailed (e : exn) (partial : str).

(** [messages] is the local variable of [create_python_function]; it is
    kept in the state so that it can be read at the end of a run and at
    a raise.  [stdout] holds one entry per [print] call, [requests] the
    completion calls made so far, [files] the file system. *)
Record world := World {
  messages : list message;
  stdout : list str;
  requests : list request;
  files : gmap str str }.

Definition M (A : Type) : Type := world -> outcome A * world.

Definition ret {A} (a : A) : M A := fun w => (Ok a, w).

Definition bind {A B} (c : M A) (k : A -> M B) : M B :=
  fun w =>
    match c w with
    | (Ok a, w') => k a w'
    | (Raise e, w') => (Raise e, w')
    end.

Definition lift {A} (o : outcome A) : M A := fun w => (o, w).

(** [try: c  except Exception as e: h e] *)
Definition try_except {A} (c : M A) (h : exn -> M A) : M A :=
  fun w =>
    match c w with
    | (Ok a, w') => (Ok a, w')
    | (Raise e, w') => h e w'
    end.

Declare Scope py_scope.
Delimit Scope py_scope with py.
Notation "x <- c ;; k" := (bind c (fun x => k))
  (at level 100, c at next level, right associativity) : py_scope.
Notation "c ;; k" := (bind c (fun _ => k))
  (at level 100, right associativity) : py_scope.
Local Open Scope py_scope.

Definition when (b : bool) (c : M unit) : M unit :=
  if b then c else ret tt.

Fixpoint for_each {A} (l : list A) (body : A -> M unit) : M unit :=
  match l with
  | [] => ret tt
  | x :: l' => body x ;; for_each l' body
  end.

Definition enumerate {A} (l : list A) : list (nat * A) :=
  combine (seq 0 (length l)) l.

(** [print(s)]: the text is appended to standard output.  Writing is
    taken to succeed: a standard output that cannot encode the text, or
    is closed, is outside the model. *)
Definition print (s : str) : M unit :=
  fun w => (Ok tt, World (messages w) (stdout w ++ [s]) (requests w) (files w)).

Definition get_messages : M (list message) :=
  fun w => (Ok (messages w), w).

Definition set_messages (l : list message) : M unit :=
  fun w => (Ok tt, World l (stdout w) (requests w) (files w)).

(** [messages.append(m)] *)
Definition append_message (m : message) : M unit :=
  fun w => (Ok tt, World (messages w ++ [m]) (stdout w) (requests w) (files w)).

Section Driver.

(** The completion service: the outcome of a call, given how many calls
    were made before it and its arguments. *)
Variable completion : nat -> request -> outcome str.

(** The file system's answer to writing [code] to [filename]. *)
Variable open_write : str -> str -> write_outcome.

(** [str.lower] and [str.isalnum], from Python's Unicode tables. *)
Variable str_lower : str -> str.
Variable isalnum : char -> bool.

Definition completion_request (msgs : list message) : request :=
  Request (lit "openai/gpt-4o-mini") msgs 1024%N.

Definition generate_response (msgs : list message) : M str :=
  fun w =>
    let req := completion_request msgs in
    (completion (length (requests w)) req,
     World (messages w) (stdout w) (requests w ++ [req]) (files w)).

Definition generate_filename (description : str) : str :=
  let filename := str_lower description in
  let filename := List.filter (fun c => isalnum c || isspace c) filename in
  let filename := take 40 (replace_char 32%N 95%N filename) in
  strip_chars (lit "_") filename ++ lit "_complete.py".

Definition write_file (filename code : str) : M unit :=
  fun w =>
    match open_write filename code with
    | Written =>
        (Ok tt, World (messages w) (stdout w) (requests w)
                      (<[filename := code]> (files w)))
    | OpenFailed e => (Raise e, w)
    | WriteFailed e partial =>
        (Raise e, World (messages w) (stdout w) (requests w)
                        (<[filename := partial]> (files w)))
    end.

Definition save_function_to_file (code description : str) : M (option str) :=
  let filename := generate_filename description in
  try_except
    (write_file filename code ;;
     ret (Some filename))
    (fun e =>
       print (lit "Warning: Could not save to file - " ++ exn_text e) ;;
       ret None).

(** Truth value of an [Optional[str]]. *)
Definition truthy (o : option str) : bool :=
  match o with
  | Some (_ :: _) => true
  | _ => false
  end.

Definition system_message : message :=
  Message system (lit "You are an expert Python programmer. Write clean, efficient functions based on user descriptions. Always output code in ```python code blocks```.").

Definition user1 (description : str) : message :=
  Message user (lit "Write a Python function that " ++ description ++ lit ". Output the function in a ```python code block```.").

Definition user2 : message :=
  Message user (lit "Add comprehensive documentation to this function including: function description, parameter descriptions with types, return value description, example usage, and edge cases. Output the complete documented function in a ```python code block```.").

Definition user3 : message :=
  Message user (lit "Add comprehensive unittest test cases to this code. Include tests for: basic functionality, edge cases, error cases, and various input scenarios. Return the complete code with the function, imports, test class, and main block to run tests in a ```python code block```.").

Definition show_response (show_full_responses : bool) (response : str) : M unit :=
  when show_full_responses
    (print (lit "Full LLM Response:") ;;
     print response ;;
     print []).

(** STEP 1: Generate Basic Function *)
Definition step1 (description : str) (show_full_responses : bool) : M str :=
  print ([nl; 128295%N] ++ lit " STEP 1: Generating Basic Function") ;;
  print (lit "Goal: Create a working function with core logic") ;;
  append_message (user1 description) ;;
  msgs <- get_messages ;;
  response1 <- generate_response msgs ;;
  show_response show_full_responses response1 ;;
  basic_function <- lift (extract_code_block response1) ;;
  print (9989%N :: lit " Generated Basic Function:") ;;
  print basic_function ;;
  print [] ;;
  append_message (Message assistant (create_clean_assistant_response basic_function)) ;;
  ret basic_function.

(** STEP 2: Add Documentation *)
Definition step2 (show_full_responses : bool) : M str :=
  print (128218%N :: lit " STEP 2: Adding Documentation") ;;
  print (lit "Goal: Add comprehensive docstrings and parameter descriptions") ;;
  append_message user2 ;;
  msgs <- get_messages ;;
  response2 <- generate_response msgs ;;
  show_response show_full_responses response2 ;;
  documented_function <- lift (extract_code_block response2) ;;
  print (9989%N :: lit " Added Documentation:") ;;
  print documented_function ;;
  print [] ;;
  append_message (Message assistant (create_clean_assistant_response documented_function)) ;;
  ret documented_function.

(** STEP 3: Add Test Cases *)
Definition step3 (show_full_responses : bool) : M str :=
  print (129514%N :: lit " STEP 3: Adding Test Cases") ;;
  print (lit "Goal: Add comprehensive unittest test cases") ;;
  append_message user3 ;;
  msgs <- get_messages ;;
  response3 <- generate_response msgs ;;
  show_response show_full_responses response3 ;;
  final_code <- lift (extract_code_block response3) ;;
  print (9989%N :: lit " Added Test Cases:") ;;
  print final_code ;;
  print [] ;;
  ret final_code.

Definition debug_line (entry : nat * message) : M unit :=
  let '(i, msg) := entry in
  print (str_of_nat (i + 1) ++ lit ". " ++ role_name (msg_role msg) ++ lit ": "
         ++ take 100 (content msg) ++ lit "...").

(** SAVE AND FINISH *)
Definition save_and_finish (final_code description : str)
    (show_full_responses : bool) : M unit :=
  print (128190%N :: lit " SAVING RESULTS") ;;
  filename <- save_function_to_file final_code description ;;
  when (truthy filename)
    (print (9989%N :: lit " Saved complete function to: "
            ++ default [] filename)) ;;
  when show_full_responses
    (print ([nl; 128269%N] ++ lit " DEBUG: Final Conversation") ;;
     print (repeat_char 61%N 30) ;;
     msgs <- get_messages ;;
     for_each (enumerate msgs) debug_line ;;
     print []).

Definition create_python_function (description : str)
    (show_full_responses : bool) : M (str * str * str) :=
  print (128640%N :: lit " Creating function: " ++ description) ;;
  print (repeat_char 61%N 60) ;;
  set_messages [system_message] ;;
  basic_function <- step1 description show_full_responses ;;
  documented_function <- step2 show_full_responses ;;
  final_code <- step3 show_full_responses ;;
  save_and_finish final_code description show_full_responses ;;
  ret (basic_function, documented_function, final_code).

End Driver.

(** ** The interactive entry point *)

(** [input(prompt)]: the prompt is written to standard output and the next
    line of standard input is returned, without its newline; with no line
    left an [EOFError] is raised.  The lines still to be read are passed
    along explicitly. *)
Definition input (prompt : str) (stdin : list str) : M (str * list str) :=
  fun w =>
    let w' := World (messages w) (stdout w ++ [prompt]) (requests w) (files w) in
    match stdin with
    | [] => (Raise (Exn (lit "EOF when reading a line")), w')
    | line :: rest => (Ok (line, rest), w')
    end.


Section Main.

Variable completion : nat -> request -> outcome str.
Variable open_write : str -> str -> write_outcome.
Variable str_lower : str -> str.
Variable isalnum : char -> bool.

Definition main (stdin : list str) : M unit :=
  print (129302%N :: lit " Enhanced Python Function Generator") ;;
  print (repeat_char 61%N 50) ;;
  print (lit "This tool creates a complete Python function with:") ;;
  print (lit "  " ++ 8226%N :: lit " Basic functionality") ;;
  print (lit "  " ++ 8226%N :: lit " Comprehensive documentation") ;;
  print (lit "  " ++ 8226%N :: lit " Unit tests") ;;
  print (lit "  " ++ 8226%N :: lit " Auto-saved to file") ;;
  print (repeat_char 61%N 50) ;;
  print (nl :: lit "What kind of function would you like to create?") ;;
  print (lit "Example: 'calculates the factorial of a number'") ;;
  print (lit "Example: 'sorts a list of dictionaries by a specific key'") ;;
  answer <- input (lit "Your description: ") stdin ;;
  let description := strip (fst answer) in
  match description with
  | [] => print (10060%N :: lit " Please provide a function description!")
  | _ :: _ =>
      answer <- input (nl :: lit "Show full LLM responses? (y/n): ") (snd answer) ;;
      let show_full := startswith (str_lower (fst answer)) (lit "y") in
      try_except
        (print (nl :: repeat_char 61%N 60) ;;
         print (128640%N :: lit " STARTING GENERATION PROCESS") ;;
         print (repeat_char 61%N 60) ;;
         _ <- create_python_function completion open_write str_lower isalnum
                description show_full ;;
         print (nl :: repeat_char 61%N 60) ;;
         print (127881%N :: lit " SUCCESS! Function generation complete!") ;;
         print (repeat_char 61%N 60) ;;
         print (lit "You now have:") ;;
         print (lit "  " ++ 9989%N :: lit " A working function") ;;
         print (lit "  " ++ 9989%N :: lit " Complete documentation") ;;
         print (lit "  " ++ 9989%N :: lit " Comprehensive tests") ;;
         print (lit "  " ++ 9989%N :: lit " Saved to file"))
        (fun e =>
           print (10060%N :: lit " Error occurred: " ++ exn_text e) ;;
           print (lit "Please check your API key and try again."))
  end.

End Main.

(** ** Notions used in the statements *)

(** The histories sent with the first, second and third completion call,
    given the code extracted at the earlier steps. *)
Definition history1 (description : str) : list message :=
  [system_message; user1 description].

Definition history2 (description basic : str) : list message :=
  history1 description
  ++ [Message assistant (create_clean_assistant_response basic); user2].

Definition history3 (description basic documented : str) : list message :=
  history2 description basic
  ++ [Message assistant (create_clean_assistant_response documented); user3].

(** The line printed when the file cannot be saved. *)
Definition save_warning (e : exn) : str :=
  lit "Warning: Could not save to file - " ++ exn_text e.

(** A computation that, from every state and whatever its outcome, leaves
    the history it found as a prefix of the history it leaves. *)
Definition appends {A} (c : M A) : Prop :=
  forall w, messages w `prefix_of` messages (snd (c w)).

(** The assistant turns of a history. *)
Definition assistant_turns (history : list message) : list message :=
  List.filter (fun m => match msg_role m with assistant => true | _ => false end)
    history.

(** "Trimmed of surrounding whitespace", in the spec's words: [code] is
    [text] less a run of whitespace characters at each end, and has no
    whitespace character left at either end. *)
Definition trimmed_of (text code : str) : Prop :=
  (exists l r, text = l ++ code ++ r
               /\ forallb isspace l = true /\ forallb isspace r = true)
  /\ (forall c rest, code = c :: rest -> isspace c = false)
  /\ (forall init c, code = init ++ [c] -> isspace c = false).

(** The extractor followed by the formatter and the extractor again. *)
Definition extract_twice (x : str) : outcome str :=
  obind (extract_code_block x) (fun code =>
    extract_code_block (create_clean_assistant_response code)).

(** ** A scripted environment for sample runs *)

Module Sample.

Definition ascii_lower (s : str) : str :=
  List.map (fun c => if ((65 <=? c) && (c <=? 90))%N then (c + 32)%N else c) s.

Definition ascii_isalnum (c : char) : bool :=
  ((48 <=? c) && (c <=? 57) || (65 <=? c) && (c <=? 90)
   || (97 <=? c) && (c <=? 122))%N.

Definition reply (body : string) : str :=
  lit "Here you go: ```python" ++ [nl] ++ lit body ++ [nl] ++ lit "``` Enjoy!".

Definition reply1 : str := reply "def add(a, b): return a + b".
Definition reply2 : str := reply "def add(a, b): 'Add.'; return a + b".
Definition reply3 : str := reply "def add(a, b): return a + b  # tests".

Definition code1 : str := lit "def add(a, b): return a + b".
Definition code2 : str := lit "def add(a, b): 'Add.'; return a + b".
Definition code3 : str := lit "def add(a, b): return a + b  # tests".

(** A service that answers every call. *)
Definition answers (n : nat) (_ : request) : outcome str :=
  match n with
  | 0 => Ok reply1
  | 1 => Ok reply2
  | _ => Ok reply3
  end.

Definition timed_out : exn := Exn (lit "Request timed out").

(** A service that fails on its second call. *)
Definition fails_second (n : nat) (_ : request) : outcome str :=
  match n with
  | 0 => Ok reply1
  | _ => Raise timed_out
  end.

Definition disk_ok (_ _ : str) : write_outcome := Written.

Definition denied : exn := Exn (lit "[Errno 13] Permission denied").

Definition disk_readonly (_ _ : str) : write_outcome := OpenFailed denied.

Definition description : str := lit "adds two numbers".

Definition start : world := World [] [] [] ∅.

End Sample.

Module Sample2.

(** A service that fails on its first call. *)
Definition fails_first (_ : nat) (_ : request) : outcome str :=
  Raise Sample.timed_out.

(** A service that fails on its third call. *)
Definition fails_third (n : nat) (_ : request) : outcome str :=
  match n with
  | 0 => Ok Sample.reply1
  | 1 => Ok Sample.reply2
  | _ => Raise Sample.timed_out
  end.

(** What is typed at the two prompts of [main]. *)
Definition typed : list str := [lit "  adds two numbers "; lit "No"].

Definition typed_blank : list str := [lit "   "; lit "y"].

End Sample2.

(** ** Facts about the string operations *)

Section StrFacts.

Implicit Types (s t sub sep : str) (c : char) (f : char -> bool).

Lemma startswith_iff s sub :
  startswith s sub = true <-> exists t, s = sub ++ t.
Proof.
  revert s. induction sub as [|p sub IH]; intros s; simpl.
  - split; [eauto | reflexivity].
  - destruct s as [|c s]; [split; [discriminate | intros [t Ht]; discriminate]|].
    rewrite andb_true_iff, N.eqb_eq, IH. split.
    + intros [-> [t ->]]. eauto.
    + intros [t Ht]. injection Ht as -> ->. eauto.
Qed.

Lemma app_cons_nonempty sub c s t :
  sub <> [] -> c :: s = sub ++ t -> exists sub', sub = c :: sub' /\ s = sub' ++ t.
Proof.
  destruct sub as [|c0 sub']; [congruence|].
  intros _ [= -> ->]. eauto.
Qed.

Lemma startswith_self_app sub t : startswith (sub ++ t) sub = true.
Proof. apply startswith_iff. eauto. Qed.

Lemma str_in_iff sub s :
  str_in sub s = true <-> exists a b, s = a ++ sub ++ b.
Proof.
  induction s as [|c s IH]; simpl.
  - rewrite orb_false_r, startswith_iff. split.
    + intros [t Ht]. exists [], t. exact Ht.
    + intros [a [b Hab]]. destruct a; [eauto | discriminate].
  - rewrite orb_true_iff, startswith_iff, IH. split.
    + intros [[t Ht] | [a [b Hab]]].
      * exists [], t. exact Ht.
      * exists (c :: a), b. simpl. congruence.
    + intros [[|c' a] [b Hab]].
      * left. eauto.
      * right. injection Hab as -> ->. eauto.
Qed.

Lemma str_in_false_app sub a m b :
  str_in sub (a ++ m ++ b) = false -> str_in sub m = false.
Proof.
  intros H. destruct (str_in sub m) eqn:E; [|reflexivity].
  apply str_in_iff in E as [x [y ->]].
  rewrite <- H. symmetry. apply str_in_iff.
  exists (a ++ x), (y ++ b). now rewrite <- !app_assoc.
Qed.

Lemma str_in_false_drop sub n s :
  str_in sub s = false -> str_in sub (drop n s) = false.
Proof.
  intros H. apply (str_in_false_app sub (take n s) (drop n s) []).
  now rewrite app_nil_r, take_drop.
Qed.

(** *** [dropwhile] and [rdropwhile] *)

Lemma dropwhile_split f s :
  exists l, s = l ++ dropwhile f s /\ forallb f l = true.
Proof.
  induction s as [|c s [l [Hl Hf]]]; simpl.
  - exists []. split; reflexivity.
  - destruct (f c) eqn:E.
    + exists (c :: l). simpl. rewrite E, Hf. split; [congruence | reflexivity].
    + exists []. split; reflexivity.
Qed.

Lemma forallb_rev_true f s : forallb f s = true -> forallb f (rev s) = true.
Proof.
  induction s as [|c s IH]; simpl; [reflexivity|].
  rewrite andb_true_iff. intros [Hc Hs].
  rewrite forallb_app, andb_true_iff. split; [now apply IH|].
  simpl. now rewrite Hc.
Qed.

Lemma rdropwhile_split f s :
  exists r, s = rdropwhile f s ++ r /\ forallb f r = true.
Proof.
  unfold rdropwhile. destruct (dropwhile_split f (rev s)) as [l [Hl Hf]].
  exists (rev l). split.
  - rewrite <- rev_app_distr, <- Hl. now rewrite rev_involutive.
  - now apply forallb_rev_true.
Qed.

Lemma dropwhile_idem f s : dropwhile f (dropwhile f s) = dropwhile f s.
Proof.
  induction s as [|c s IH]; simpl; [reflexivity|].
  destruct (f c) eqn:E; [exact IH | simpl; now rewrite E].
Qed.

Lemma rdropwhile_idem f s : rdropwhile f (rdropwhile f s) = rdropwhile f s.
Proof. unfold rdropwhile. now rewrite rev_involutive, dropwhile_idem. Qed.

Lemma dropwhile_snoc f s c :
  dropwhile f (s ++ [c]) =
  match dropwhile f s with
  | [] => if f c then [] else [c]
  | d => d ++ [c]
  end.
Proof.
  induction s as [|x s IH]; simpl; [reflexivity|].
  destruct (f x); [exact IH | reflexivity].
Qed.

Lemma rdropwhile_cons f c s :
  rdropwhile f (c :: s) =
  match rdropwhile f s with
  | [] => if f c then [] else [c]
  | r => c :: r
  end.
Proof.
  unfold rdropwhile. simpl. rewrite dropwhile_snoc.
  destruct (dropwhile f (rev s)) as [|d ds] eqn:E; simpl.
  - destruct (f c); reflexivity.
  - rewrite rev_app_distr. simpl.
    destruct (rev ds ++ [d]) eqn:E'; [now destruct (rev ds) | reflexivity].
Qed.

Lemma rdropwhile_snoc f s c : f c = true -> rdropwhile f (s ++ [c]) = rdropwhile f s.
Proof.
  intros H. unfold rdropwhile. rewrite rev_app_distr. simpl. now rewrite H.
Qed.

Lemma drop_rdrop_comm f s :
  dropwhile f (rdropwhile f s) = rdropwhile f (dropwhile f s).
Proof.
  induction s as [|c s IH]; [reflexivity|].
  simpl. rewrite rdropwhile_cons. destruct (f c) eqn:E.
  - rewrite <- IH. destruct (rdropwhile f s); simpl; rewrite ?E; reflexivity.
  - rewrite rdropwhile_cons. destruct (rdropwhile f s); simpl; rewrite ?E; reflexivity.
Qed.

Lemma rdropwhile_app_stop f a c b :
  f c = false -> rdropwhile f (a ++ c :: b) = a ++ c :: rdropwhile f b.
Proof.
  intros H. induction a as [|x a IH]; simpl.
  - rewrite rdropwhile_cons. destruct (rdropwhile f b); [now rewrite H | reflexivity].
  - rewrite rdropwhile_cons, IH. now destruct a.
Qed.

End StrFacts.

(** *** [strip] *)

Section StripFacts.

Implicit Types (s t sub : str) (c : char).

Lemma strip_idem s : strip (strip s) = strip s.
Proof.
  unfold strip, lstrip, rstrip.
  now rewrite drop_rdrop_comm, rdropwhile_idem, dropwhile_idem.
Qed.

Lemma strip_comm s : strip s = lstrip (rstrip s).
Proof. unfold strip, lstrip, rstrip. now rewrite drop_rdrop_comm. Qed.

Lemma strip_rstrip s : strip (rstrip s) = strip s.
Proof.
  unfold strip, lstrip, rstrip.
  now rewrite drop_rdrop_comm, rdropwhile_idem.
Qed.

Lemma strip_cons_space c s : isspace c = true -> strip (c :: s) = strip s.
Proof. intros H. unfold strip, lstrip. simpl. now rewrite H. Qed.

Lemma strip_snoc_space s c : isspace c = true -> strip (s ++ [c]) = strip s.
Proof.
  intros H. rewrite !strip_comm. unfold rstrip.
  now rewrite rdropwhile_snoc.
Qed.

(** [strip] removes a run of whitespace at each end and nothing else. *)
Lemma strip_surround s :
  exists l r, s = l ++ strip s ++ r
              /\ forallb isspace l = true /\ forallb isspace r = true.
Proof.
  destruct (dropwhile_split isspace s) as [l [Hl Hfl]].
  destruct (rdropwhile_split isspace (dropwhile isspace s)) as [r [Hr Hfr]].
  exists l, r. unfold strip, lstrip, rstrip.
  split; [|split; assumption]. now rewrite <- Hr.
Qed.

Lemma strip_no_in sub s : str_in sub s = false -> str_in sub (strip s) = false.
Proof.
  intros H. destruct (strip_surround s) as [l [r [Hs _]]].
  rewrite Hs in H. exact (str_in_false_app _ _ _ _ H).
Qed.

Lemma fence_past_space c s :
  isspace c = true -> str_in fence (c :: s) = true -> str_in fence s = true.
Proof.
  intros Hc H. simpl in H.
  destruct (N.eqb_spec c 96) as [->|_]; [discriminate | exact H].
Qed.

Lemma fence_before_space s c :
  isspace c = true -> str_in fence (s ++ [c]) = true -> str_in fence s = true.
Proof.
  intros Hc H. apply str_in_iff in H as [a [b Hab]]. apply str_in_iff.
  destruct b as [|y b0].
  - exfalso.
    change (a ++ fence ++ []) with (a ++ [96; 96] ++ [96])%N in Hab.
    rewrite app_assoc in Hab. apply app_inj_tail in Hab as [_ ->]. discriminate.
  - destruct (exists_last (l := y :: b0)) as [b' [x Hb]]; [discriminate|].
    rewrite Hb in Hab.
    replace (a ++ fence ++ b' ++ [x]) with ((a ++ fence ++ b') ++ [x]) in Hab
      by now rewrite <- !app_assoc.
    apply app_inj_tail in Hab as [-> _]. eauto.
Qed.

Lemma fence_before_spaces s r :
  forallb isspace r = true -> str_in fence (s ++ r) = true -> str_in fence s = true.
Proof.
  revert s. induction r as [|c r IH]; intros s Hr H.
  - now rewrite app_nil_r in H.
  - simpl in Hr. apply andb_true_iff in Hr as [Hc Hr].
    apply (fence_before_space s c Hc). apply (IH _ Hr).
    now rewrite <- app_assoc.
Qed.

Lemma fence_past_spaces l s :
  forallb isspace l = true -> str_in fence (l ++ s) = true -> str_in fence s = true.
Proof.
  induction l as [|c l IH]; intros Hl H; [exact H|].
  simpl in Hl. apply andb_true_iff in Hl as [Hc Hl].
  apply (IH Hl). exact (fence_past_space c _ Hc H).
Qed.

(** A fence in the text is still there after [strip]. *)
Lemma strip_keeps_fence s : str_in fence s = true -> str_in fence (strip s) = true.
Proof.
  intros H. destruct (strip_surround s) as [l [r [Hs [Hl Hr]]]].
  rewrite Hs in H. apply fence_past_spaces in H; [|exact Hl].
  exact (fence_before_spaces _ _ Hr H).
Qed.

End StripFacts.

(** *** [split] *)

Section SplitFacts.

Variable sep : str.
Hypothesis sep_nonempty : sep <> [].

Implicit Types (s t : str) (c : char).

Lemma cons_head_length c (ps : list str) :
  ps <> [] -> length (cons_head c ps) = length ps.
Proof. destruct ps; [congruence | reflexivity]. Qed.

Lemma split_skip_nonnil k s : split_skip sep k s <> [].
Proof.
  revert k. induction s as [|c s IH]; intros k; simpl; [discriminate|].
  destruct k; [|apply IH].
  destruct (startswith (c :: s) sep); [discriminate|].
  specialize (IH 0). now destruct (split_skip sep 0 s).
Qed.

(** Without an occurrence of the separator the text is the only part. *)
Lemma split_absent s : str_in sep s = false -> split s sep = [s].
Proof.
  unfold split. induction s as [|c s IH]; [reflexivity|].
  intros H. cbn [str_in] in H. apply orb_false_iff in H as [Hst Hin].
  cbn [split_skip]. now rewrite Hst, IH.
Qed.

Lemma str_in_nil_false : str_in sep [] = false.
Proof. destruct sep; [congruence | reflexivity]. Qed.

(** With an occurrence there are at least two parts. *)
Lemma split_present s : str_in sep s = true -> 2 <= length (split s sep).
Proof.
  unfold split. induction s as [|c s IH]; intros H.
  - now rewrite str_in_nil_false in H.
  - cbn [str_in] in H. cbn [split_skip].
    destruct (startswith (c :: s) sep) eqn:Hst.
    + pose proof (split_skip_nonnil (length sep - 1) s) as Hn.
      destruct (split_skip sep (length sep - 1) s); [congruence | simpl; lia].
    + rewrite cons_head_length by apply split_skip_nonnil. now apply IH.
Qed.

Lemma split_head_prefix s :
  exists p ps r, split_skip sep 0 s = p :: ps /\ s = p ++ r.
Proof.
  induction s as [|c s (p & ps & r & Hsp & Hs)]; cbn [split_skip].
  - now exists [], [], [].
  - destruct (startswith (c :: s) sep).
    + now exists [], (split_skip sep (length sep - 1) s), (c :: s).
    + rewrite Hsp. exists (c :: p), ps, r. simpl. now rewrite <- Hs.
Qed.

(** No part contains the separator. *)
Lemma split_parts_clean k s :
  Forall (fun p => str_in sep p = false) (split_skip sep k s).
Proof.
  revert k. induction s as [|c s IH]; intros k; cbn [split_skip].
  - constructor; [apply str_in_nil_false | constructor].
  - destruct k; [|apply IH].
    destruct (startswith (c :: s) sep) eqn:Hst.
    + constructor; [apply str_in_nil_false | apply IH].
    + specialize (IH 0).
      destruct (split_head_prefix s) as (p & ps & r & Hsp & Hs).
      rewrite Hsp in *. simpl.
      apply Forall_cons in IH as [Hp Hps].
      constructor; [|exact Hps].
      cbn [str_in]. rewrite Hp, orb_false_r.
      destruct (startswith (c :: p) sep) eqn:Hcp; [exfalso | exact Hcp].
      apply startswith_iff in Hcp as [t Ht].
      enough (startswith (c :: s) sep = true) by congruence.
      apply startswith_iff.
      exists (t ++ r). rewrite app_assoc, <- Ht. simpl. now rewrite <- Hs.
Qed.

Lemma join_cons (p : str) (ps : list str) :
  ps <> [] -> join sep (p :: ps) = p ++ sep ++ join sep ps.
Proof. destruct ps; [congruence | reflexivity]. Qed.

Lemma join_cons_head c (ps : list str) :
  ps <> [] -> join sep (cons_head c ps) = c :: join sep ps.
Proof. destruct ps as [|p [|q ps]]; [congruence | reflexivity | reflexivity]. Qed.

Lemma join_split_skip k s :
  k <= length s -> join sep (split_skip sep k s) = drop k s.
Proof.
  revert k. induction s as [|c s IH]; intros k Hk.
  - simpl in Hk. now replace k with 0 by lia.
  - cbn [split_skip]. destruct k as [|k]; [|apply IH; simpl in Hk; lia].
    destruct (startswith (c :: s) sep) eqn:Hst.
    + apply startswith_iff in Hst as [t Ht].
      destruct (app_cons_nonempty sep c s t sep_nonempty Ht) as (sep' & Hsep & ->).
      replace (length sep - 1) with (length sep') by (rewrite Hsep; simpl; lia).
      specialize (IH (length sep')). rewrite drop_app_length in IH.
      rewrite join_cons by apply split_skip_nonnil.
      rewrite IH by (rewrite length_app; lia).
      cbn [app drop]. rewrite Hsep at 1. reflexivity.
    + rewrite join_cons_head by apply split_skip_nonnil.
      now rewrite IH by lia.
Qed.

(** Joining the parts with the separator gives the text back. *)
Lemma join_split s : join sep (split s sep) = s.
Proof. apply (join_split_skip 0 s). lia. Qed.

End SplitFacts.

(** ** The extractor on formatted turns *)

Section ExtractFacts.

Implicit Types (code response : str).

Lemma startswith_fence_before_nl a b :
  startswith (a ++ nl :: b) fence = startswith a fence.
Proof.
  unfold nl.
  destruct a as [|x [|y [|z a]]]; simpl; rewrite ?andb_false_r; reflexivity.
Qed.

Lemma split_closing_fence code :
  str_in fence code = false ->
  split_skip fence 0 (code ++ nl :: fence) = [code ++ [nl]; []].
Proof.
  induction code as [|c code IH]; intros H; [reflexivity|].
  cbn [str_in] in H. apply orb_false_iff in H as [Hst Hin].
  change ((c :: code) ++ nl :: fence) with (c :: (code ++ nl :: fence)).
  cbn [split_skip].
  change (c :: (code ++ nl :: fence)) with ((c :: code) ++ nl :: fence).
  rewrite startswith_fence_before_nl, Hst, (IH Hin). reflexivity.
Qed.

Lemma split_formatted code :
  str_in fence code = false ->
  split (create_clean_assistant_response code) fence
  = [[]; python ++ nl :: code ++ [nl]; []].
Proof.
  intros H. unfold split, create_clean_assistant_response.
  change (fence ++ python ++ [nl] ++ code ++ [nl] ++ fence)
    with (fence ++ python ++ nl :: (code ++ nl :: fence)).
  unfold fence at 2, python at 1, nl at 1. cbn [app split_skip].
  cbn -[split_skip app]. cbn [split_skip].
  cbn -[split_skip app]. rewrite (split_closing_fence code H). reflexivity.
Qed.

Lemma str_in_formatted code :
  str_in fence (create_clean_assistant_response code) = true.
Proof.
  apply str_in_iff. exists [], (python ++ [nl] ++ code ++ [nl] ++ fence).
  reflexivity.
Qed.

Lemma strip_python_tail t : strip (python ++ t) = python ++ rstrip t.
Proof.
  unfold strip, rstrip.
  change (lstrip (python ++ t)) with (python ++ t).
  exact (rdropwhile_app_stop isspace [112; 121; 116; 104; 111]%N 110%N t eq_refl).
Qed.

Lemma extract_formatted code :
  str_in fence code = false ->
  extract_code_block (create_clean_assistant_response code) = Ok (strip code).
Proof.
  intros H. unfold extract_code_block.
  rewrite str_in_formatted, (split_formatted code H).
  cbn [length Nat.leb index lookup list_lookup obind].
  rewrite strip_python_tail, startswith_self_app.
  change (drop 6 (python ++ ?t)) with t.
  f_equal. rewrite strip_rstrip.
  rewrite strip_cons_space by reflexivity.
  now rewrite strip_snoc_space.
Qed.

Lemma extract_total response : exists code, extract_code_block response = Ok code.
Proof.
  unfold extract_code_block.
  destruct (str_in fence response); [|eauto].
  destruct (3 <=? length (split response fence)) eqn:Hlen; [|eauto].
  apply Nat.leb_le in Hlen.
  destruct (split response fence) as [|p0 [|p1 ps]]; simpl in Hlen; try lia.
  cbn [index lookup list_lookup obind].
  destruct (startswith (strip p1) python); eauto.
Qed.

(** What the extractor returns is stripped, and free of fences unless the
    text had a single, unpaired one. *)
Lemma extract_clean response code :
  extract_code_block response = Ok code ->
  strip code = code
  /\ (length (split response fence) <> 2 -> str_in fence code = false).
Proof.
  unfold extract_code_block.
  assert (Hne : fence <> []) by discriminate.
  destruct (str_in fence response) eqn:Hin.
  - destruct (3 <=? length (split response fence)) eqn:Hlen.
    + pose proof (split_parts_clean fence Hne 0 response) as Hclean.
      fold (split response fence) in Hclean.
      destruct (split response fence) as [|p0 [|p1 ps]]; try discriminate.
      apply Forall_cons in Hclean as [_ Hclean].
      apply Forall_cons in Hclean as [Hp1 _].
      cbn [index lookup list_lookup obind].
      destruct (startswith (strip p1) python); intros [= <-].
      * split; [apply strip_idem|]. intros _.
        apply strip_no_in, str_in_false_drop, strip_no_in, Hp1.
      * split; [apply strip_idem|]. intros _. apply strip_no_in, Hp1.
    + intros [= <-]. split; [apply strip_idem|]. intros Hlen2. exfalso.
      apply Nat.leb_gt in Hlen.
      pose proof (split_present fence Hne response Hin). lia.
  - intros [= <-]. split; [apply strip_idem|]. intros _.
    now apply strip_no_in.
Qed.

End ExtractFacts.

(** ** Running the driver *)

Section DriverFacts.

Variable completion : nat -> request -> outcome str.
Variable open_write : str -> str -> write_outcome.
Variable str_lower : str -> str.
Variable isalnum : char -> bool.

Local Arguments lit : simpl never.
Local Arguments create_clean_assistant_response : simpl never.
Local Arguments completion_request : simpl never.

Ltac run_block :=
  cbv beta iota zeta delta
    [bind print append_message get_messages set_messages generate_response
     show_response when lift ret];
  cbn [messages stdout requests files].

Lemma step1_run description show w r b :
  completion (length (requests w))
    (completion_request (messages w ++ [user1 description])) = Ok r ->
  extract_code_block r = Ok b ->
  exists out,
    step1 completion description show w
    = (Ok b,
       World (messages w ++ [user1 description;
                             Message assistant (create_clean_assistant_response b)])
             (stdout w ++ out)
             (requests w ++ [completion_request (messages w ++ [user1 description])])
             (files w))
    /\ In b out.
Proof.
  intros Hc Hx. unfold step1. run_block. rewrite Hc.
  destruct show; run_block; rewrite Hx; run_block;
    rewrite <- !app_assoc; cbn [app];
    (eexists; split; [reflexivity | cbn; tauto]).
Qed.

Lemma step2_run show w r b :
  completion (length (requests w))
    (completion_request (messages w ++ [user2])) = Ok r ->
  extract_code_block r = Ok b ->
  exists out,
    step2 completion show w
    = (Ok b,
       World (messages w ++ [user2;
                             Message assistant (create_clean_assistant_response b)])
             (stdout w ++ out)
             (requests w ++ [completion_request (messages w ++ [user2])])
             (files w))
    /\ In b out.
Proof.
  intros Hc Hx. unfold step2. run_block. rewrite Hc.
  destruct show; run_block; rewrite Hx; run_block;
    rewrite <- !app_assoc; cbn [app];
    (eexists; split; [reflexivity | cbn; tauto]).
Qed.

Lemma step2_raise show w e :
  completion (length (requests w))
    (completion_request (messages w ++ [user2])) = Raise e ->
  exists out,
    step2 completion show w
    = (Raise e,
       World (messages w ++ [user2]) (stdout w ++ out)
             (requests w ++ [completion_request (messages w ++ [user2])])
             (files w)).
Proof.
  intros Hc. unfold step2. run_block. rewrite Hc.
  rewrite <- !app_assoc; cbn [app]. eexists; reflexivity.
Qed.

Lemma step3_run show w r b :
  completion (length (requests w))
    (completion_request (messages w ++ [user3])) = Ok r ->
  extract_code_block r = Ok b ->
  exists out,
    step3 completion show w
    = (Ok b,
       World (messages w ++ [user3]) (stdout w ++ out)
             (requests w ++ [completion_request (messages w ++ [user3])])
             (files w))
    /\ In b out.
Proof.
  intros Hc Hx. unfold step3. run_block. rewrite Hc.
  destruct show; run_block; rewrite Hx; run_block;
    rewrite <- !app_assoc; cbn [app];
    (eexists; split; [reflexivity | cbn; tauto]).
Qed.

Lemma for_each_debug_line (l : list (nat * message)) w :
  exists out,
    for_each l debug_line w
    = (Ok tt, World (messages w) (stdout w ++ out) (requests w) (files w)).
Proof.
  revert w. induction l as [|[i msg] l IH]; intros w.
  - exists []. rewrite app_nil_r. now destruct w.
  - cbn [for_each]. unfold debug_line at 1. run_block.
    match goal with |- context [for_each l debug_line ?W] =>
      destruct (IH W) as [out ->] end.
    cbn [messages stdout requests files].
    rewrite <- app_assoc. eexists; reflexivity.
Qed.

Lemma save_and_finish_run final description show w :
  exists out fs,
    save_and_finish open_write str_lower isalnum final description show w
    = (Ok tt, World (messages w) (stdout w ++ out) (requests w) fs)
    /\ match open_write (generate_filename str_lower isalnum description) final with
       | Written =>
           fs = <[generate_filename str_lower isalnum description := final]> (files w)
       | OpenFailed e => fs = files w /\ In (save_warning e) out
       | WriteFailed e partial =>
           fs = <[generate_filename str_lower isalnum description := partial]> (files w)
           /\ In (save_warning e) out
       end.
Proof.
  unfold save_and_finish, save_function_to_file, try_except, write_file.
  run_block.
  destruct (open_write _ final) as [|e|e partial]; run_block;
    destruct (truthy _); destruct show; run_block;
    try match goal with |- context [for_each ?l debug_line ?W] =>
      destruct (for_each_debug_line l W) as [dbg ->] end;
    run_block; rewrite <- ?app_assoc; cbn [app];
    (eexists; eexists; split; [reflexivity|]);
    unfold save_warning; cbn [In]; auto.
Qed.

Ltac at_world lem :=
  match goal with
  | |- context [step1 _ _ _ ?W] => destruct (lem W) as (?out & ?E & ?I)
  | |- context [step2 _ _ ?W] => destruct (lem W) as (?out & ?E & ?I)
  | |- context [step3 _ _ ?W] => destruct (lem W) as (?out & ?E & ?I)
  end.

Ltac call_index :=
  cbn [messages stdout requests files app];
  rewrite ?length_app; cbn [length]; rewrite <- ?Nat.add_assoc; cbn [Nat.add].

(** A run in which the three completion calls succeed. *)
Lemma run_completed description show w r1 r2 r3 b1 b2 b3 :
  completion (length (requests w))
    (completion_request (history1 description)) = Ok r1 ->
  extract_code_block r1 = Ok b1 ->
  completion (length (requests w) + 1)
    (completion_request (history2 description b1)) = Ok r2 ->
  extract_code_block r2 = Ok b2 ->
  completion (length (requests w) + 2)
    (completion_request (history3 description b1 b2)) = Ok r3 ->
  extract_code_block r3 = Ok b3 ->
  exists out fs,
    create_python_function completion open_write str_lower isalnum
      description show w
    = (Ok (b1, b2, b3),
       World (history3 description b1 b2) (stdout w ++ out)
             (requests w ++ [completion_request (history1 description);
                             completion_request (history2 description b1);
                             completion_request (history3 description b1 b2)])
             fs)
    /\ (In b1 out /\ In b2 out /\ In b3 out)
    /\ match open_write (generate_filename str_lower isalnum description) b3 with
       | Written =>
           fs = <[generate_filename str_lower isalnum description := b3]> (files w)
       | OpenFailed e => fs = files w /\ In (save_warning e) out
       | WriteFailed e partial =>
           fs = <[generate_filename str_lower isalnum description := partial]> (files w)
           /\ In (save_warning e) out
       end.
Proof.
  intros H1 X1 H2 X2 H3 X3.
  unfold create_python_function. run_block.
  at_world (fun W => step1_run description show W r1 b1);
    [exact H1 | exact X1 |].
  rewrite E. run_block. clear E.
  at_world (fun W => step2_run show W r2 b2); [call_index; exact H2 | exact X2 |].
  rewrite E. run_block. clear E.
  at_world (fun W => step3_run show W r3 b3); [call_index; exact H3 | exact X3 |].
  rewrite E. run_block. clear E.
  match goal with |- context [save_and_finish _ _ _ _ _ _ ?W] =>
    destruct (save_and_finish_run b3 description show W) as (o4 & fs & E & Hfs)
  end.
  rewrite E. run_block. cbn [messages stdout requests files app] in *.
  rewrite <- !app_assoc. cbn [app].
  eexists; exists fs. split; [reflexivity|].
  split; [|destruct (open_write _ b3); [exact Hfs |..];
            (split; [apply Hfs|]); destruct Hfs as [_ Hfs]];
    cbn [In]; rewrite !in_app_iff; tauto.
Qed.

(** A run in which the second completion call raises. *)
Lemma run_fails_at_step2 description show w r1 b1 e :
  completion (length (requests w))
    (completion_request (history1 description)) = Ok r1 ->
  extract_code_block r1 = Ok b1 ->
  completion (length (requests w) + 1)
    (completion_request (history2 description b1)) = Raise e ->
  exists out,
    create_python_function completion open_write str_lower isalnum
      description show w
    = (Raise e,
       World (history2 description b1) (stdout w ++ out)
             (requests w ++ [completion_request (history1 description);
                             completion_request (history2 description b1)])
             (files w))
    /\ In b1 out.
Proof.
  intros H1 X1 H2.
  unfold create_python_function. run_block.
  at_world (fun W => step1_run description show W r1 b1);
    [exact H1 | exact X1 |].
  rewrite E. run_block. clear E.
  match goal with |- context [step2 _ _ ?W] =>
    destruct (step2_raise show W e) as (o2 & E); [call_index; exact H2|] end.
  rewrite E. run_block. cbn [messages stdout requests files app].
  rewrite <- !app_assoc. cbn [app].
  eexists. split; [reflexivity|].
  cbn [In]. rewrite !in_app_iff. tauto.
Qed.

(** *** Only appending *)

Lemma appends_ret {A} (a : A) : appends (ret a).
Proof. intros w. reflexivity. Qed.

Lemma appends_bind {A B} (c : M A) (k : A -> M B) :
  appends c -> (forall a, appends (k a)) -> appends (bind c k).
Proof.
  intros Hc Hk w. unfold bind. specialize (Hc w).
  destruct (c w) as [[a|e] w']; cbn [snd] in *; [|exact Hc].
  etransitivity; [exact Hc | apply Hk].
Qed.

Lemma appends_print s : appends (print s).
Proof. intros w. reflexivity. Qed.

Lemma appends_append_message m : appends (append_message m).
Proof. intros w. now apply prefix_app_r. Qed.

Lemma appends_get_messages : appends get_messages.
Proof. intros w. reflexivity. Qed.

Lemma appends_lift {A} (o : outcome A) : appends (lift o).
Proof. intros w. reflexivity. Qed.

Lemma appends_generate_response msgs : appends (generate_response completion msgs).
Proof. intros w. reflexivity. Qed.

Lemma appends_when b c : appends c -> appends (when b c).
Proof. intros Hc. destruct b; [exact Hc | apply appends_ret]. Qed.

Lemma appends_try_except {A} (c : M A) (h : exn -> M A) :
  appends c -> (forall e, appends (h e)) -> appends (try_except c h).
Proof.
  intros Hc Hh w. unfold try_except. specialize (Hc w).
  destruct (c w) as [[a|e] w']; cbn [snd] in *; [exact Hc|].
  etransitivity; [exact Hc | apply Hh].
Qed.

Lemma appends_write_file filename code : appends (write_file open_write filename code).
Proof. intros w. unfold write_file. destruct (open_write filename code); reflexivity. Qed.

Lemma appends_for_each {A} (l : list A) (body : A -> M unit) :
  (forall x, appends (body x)) -> appends (for_each l body).
Proof.
  intros Hb. induction l as [|x l IH]; cbn [for_each].
  - apply appends_ret.
  - apply appends_bind; [apply Hb | intros _; exact IH].
Qed.

Ltac appends_tac :=
  repeat first
    [ apply appends_ret | apply appends_print | apply appends_append_message
    | apply appends_get_messages | apply appends_lift
    | apply appends_generate_response | apply appends_write_file
    | apply appends_bind; [|intros ?]
    | apply appends_when
    | apply appends_try_except; [|intros ?]
    | apply appends_for_each; intros [? ?]; unfold debug_line ].

Lemma appends_step1 description show : appends (step1 completion description show).
Proof. unfold step1, show_response. appends_tac. Qed.

Lemma appends_step2 show : appends (step2 completion show).
Proof. unfold step2, show_response. appends_tac. Qed.

Lemma appends_step3 show : appends (step3 completion show).
Proof. unfold step3, show_response. appends_tac. Qed.

Lemma appends_save_and_finish final description show :
  appends (save_and_finish open_write str_lower isalnum final description show).
Proof. unfold save_and_finish, save_function_to_file. appends_tac. Qed.

End DriverFacts.

(** ** The code extractor and the turn formatter *)

Example extract_spec_example :
  extract_code_block
    (lit "foo ```python" ++ [nl] ++ lit "CODE" ++ [nl] ++ lit "``` bar")
  = Ok (lit "CODE").
Proof. vm_compute. reflexivity. Qed.

Example split_example :
  split (lit "a```b``````c````") fence
  = [lit "a"; lit "b"; lit ""; lit "c"; lit "`"].
Proof. vm_compute. reflexivity. Qed.

(** C3, as stated, fails: code that is free of fences but starts with
    whitespace does not come back unchanged, its indentation is lost. *)
Lemma round_trip_drops_outer_whitespace :
  let code := lit "    return x" in
  str_in fence code = false
  /\ extract_code_block (create_clean_assistant_response code)
     = Ok (lit "return x")
  /\ extract_code_block (create_clean_assistant_response code) <> Ok code.
Proof. vm_compute. repeat split; discriminate. Qed.

(** C3, amended: for every code string without a triple backtick,
    extracting from the formatted turn gives the code with its leading and
    trailing whitespace stripped, hence the code itself whenever it has no
    whitespace at either end. *)
Theorem formatted_code_round_trips_stripped (code : str) :
  str_in fence code = false ->
  extract_code_block (create_clean_assistant_response code) = Ok (strip code)
  /\ (strip code = code ->
      extract_code_block (create_clean_assistant_response code) = Ok code).
Proof.
  intros H. rewrite (extract_formatted code H).
  split; [reflexivity | now intros ->].
Qed.

Lemma formatted_code_round_trips_stripped_witness :
  extract_code_block (create_clean_assistant_response (lit "x = 1 "))
  = Ok (strip (lit "x = 1 "))
  /\ (strip (lit "x = 1 ") = lit "x = 1 " ->
      extract_code_block (create_clean_assistant_response (lit "x = 1 "))
      = Ok (lit "x = 1 ")).
Proof.
  apply (formatted_code_round_trips_stripped (lit "x = 1 ")).
  vm_compute. reflexivity.
Defined.

(** C4, as stated, fails: a text with a single, unpaired fence is returned
    whole by the extractor, and extracting from its formatted turn then
    cuts it at that fence. *)
Lemma extract_not_idempotent_on_lone_fence :
  extract_code_block (lit "a```b") = Ok (lit "a```b")
  /\ extract_twice (lit "a```b") = Ok (lit "a")
  /\ extract_twice (lit "a```b") <> extract_code_block (lit "a```b").
Proof. vm_compute. repeat split; discriminate. Qed.

(** C4, amended: for every input whose split on the triple backtick does
    not give exactly two parts (no fence at all, or a paired one),
    extract(format(extract(x))) = extract(x). *)
Theorem extract_idempotent_without_lone_fence (x : str) :
  length (split x fence) <> 2 ->
  extract_twice x = extract_code_block x.
Proof.
  intros Hlen. unfold extract_twice.
  destruct (extract_total x) as [code Hx]. rewrite Hx. cbn [obind].
  destruct (extract_clean x code Hx) as [Hstrip Hfree].
  rewrite (extract_formatted code (Hfree Hlen)). now rewrite Hstrip.
Qed.

Lemma extract_idempotent_without_lone_fence_witness :
  extract_twice (lit "Sure! ```python print(1) ``` Done.")
  = extract_code_block (lit "Sure! ```python print(1) ``` Done.").
Proof.
  apply (extract_idempotent_without_lone_fence
           (lit "Sure! ```python print(1) ``` Done.")).
  vm_compute. lia.
Defined.

(** C5, as stated, fails: a leading language name other than [python] is
    not stripped, it stays at the head of the extracted code. *)
Lemma other_language_tag_is_kept :
  let response := lit "```javascript" ++ [nl] ++ lit "let x = 1;```" in
  split response fence !! 1 = Some (lit "javascript" ++ [nl] ++ lit "let x = 1;")
  /\ extract_code_block response
     = Ok (lit "javascript" ++ [nl] ++ lit "let x = 1;")
  /\ extract_code_block response <> Ok (strip (lit "let x = 1;")).
Proof. vm_compute. repeat split; discriminate. Qed.

(** C9: the extractor never raises, whatever its input: its one indexing
    [parts[1]] is guarded by the length test.  The formatter wraps its
    argument in the same fourteen characters every time.  Both are
    functions of their argument alone, so equal inputs give equal
    outputs. *)
Theorem extractor_and_formatter_total (text : str) :
  (exists code, extract_code_block text = Ok code)
  /\ (exists code,
        extract_code_block (create_clean_assistant_response text) = Ok code)
  /\ length (create_clean_assistant_response text) = length text + 14
  /\ startswith (create_clean_assistant_response text) (fence ++ python ++ [nl])
     = true.
Proof.
  split; [apply extract_total|].
  split; [apply extract_total|].
  split.
  - unfold create_clean_assistant_response.
    rewrite !length_app. cbn [length fence python]. lia.
  - apply startswith_iff. exists (text ++ [nl] ++ fence).
    unfold create_clean_assistant_response. now rewrite <- !app_assoc.
Qed.

(** ** The conversation driver *)

Section DriverClaims.

Variable completion : nat -> request -> outcome str.
Variable open_write : str -> str -> write_outcome.
Variable str_lower : str -> str.
Variable isalnum : char -> bool.

Local Abbreviation run_of description show w :=
  (create_python_function completion open_write str_lower isalnum
     description show w).

(** C1, amended: after a run in which the three completion calls
    succeed, the history holds exactly 6 messages, the system message
    followed by user, assistant, user, assistant, user: no assistant turn
    is appended for the third step.  The history only grows: the histories
    sent with the three calls are prefixes of one another and of the final
    history, and each block of the function leaves the history it found
    as a prefix of the one it leaves. *)
Theorem completed_run_history description show w r1 r2 r3 b1 b2 b3 :
  completion (length (requests w))
    (completion_request (history1 description)) = Ok r1 ->
  extract_code_block r1 = Ok b1 ->
  completion (length (requests w) + 1)
    (completion_request (history2 description b1)) = Ok r2 ->
  extract_code_block r2 = Ok b2 ->
  completion (length (requests w) + 2)
    (completion_request (history3 description b1 b2)) = Ok r3 ->
  extract_code_block r3 = Ok b3 ->
  let final := snd (run_of description show w) in
  fst (run_of description show w) = Ok (b1, b2, b3)
  /\ length (messages final) = 6
  /\ List.map msg_role (messages final)
     = [system; user; assistant; user; assistant; user]
  /\ List.map req_messages (drop (length (requests w)) (requests final))
     = [history1 description; history2 description b1; messages final]
  /\ history1 description `prefix_of` history2 description b1
  /\ history2 description b1 `prefix_of` messages final
  /\ appends (step1 completion description show)
  /\ appends (step2 completion show)
  /\ appends (step3 completion show)
  /\ appends (save_and_finish open_write str_lower isalnum b3 description show).
Proof.
  intros H1 X1 H2 X2 H3 X3.
  destruct (run_completed completion open_write str_lower isalnum
              description show w r1 r2 r3 b1 b2 b3 H1 X1 H2 X2 H3 X3)
    as (out & fs & E & _ & _).
  cbv zeta. rewrite E. cbn [fst snd messages requests].
  rewrite drop_app_length.
  repeat split; try reflexivity.
  - now apply prefix_app_r.
  - now apply prefix_app_r.
  - apply appends_step1.
  - apply appends_step2.
  - apply appends_step3.
  - apply appends_save_and_finish.
Qed.

(** C2, amended: in a completed run the assistant turns of the history
    are exactly two, those of steps 1 and 2, and the content of each is
    the formatter applied to the code extracted from that step's
    response; step 3 appends no assistant turn. *)
Theorem assistant_turns_are_normalized description show w r1 r2 r3 b1 b2 b3 :
  completion (length (requests w))
    (completion_request (history1 description)) = Ok r1 ->
  extract_code_block r1 = Ok b1 ->
  completion (length (requests w) + 1)
    (completion_request (history2 description b1)) = Ok r2 ->
  extract_code_block r2 = Ok b2 ->
  completion (length (requests w) + 2)
    (completion_request (history3 description b1 b2)) = Ok r3 ->
  extract_code_block r3 = Ok b3 ->
  let final := snd (run_of description show w) in
  assistant_turns (messages final)
  = [Message assistant (create_clean_assistant_response b1);
     Message assistant (create_clean_assistant_response b2)]
  /\ messages final !! 2
     = Some (Message assistant (create_clean_assistant_response b1))
  /\ messages final !! 4
     = Some (Message assistant (create_clean_assistant_response b2))
  /\ List.last (messages final) system_message = user3.
Proof.
  intros H1 X1 H2 X2 H3 X3.
  destruct (run_completed completion open_write str_lower isalnum
              description show w r1 r2 r3 b1 b2 b3 H1 X1 H2 X2 H3 X3)
    as (out & fs & E & _ & _).
  cbv zeta. rewrite E. cbn [snd messages]. repeat split.
Qed.

(** C7: if the second completion call raises, the run ends with that
    exception; exactly two calls were made, so the third was never
    attempted; the file system is untouched; and the code extracted at
    step 1 was printed and is in the history as its assistant turn. *)
Theorem completion_failure_at_step2 description show w r1 b1 e :
  completion (length (requests w))
    (completion_request (history1 description)) = Ok r1 ->
  extract_code_block r1 = Ok b1 ->
  completion (length (requests w) + 1)
    (completion_request (history2 description b1)) = Raise e ->
  let final := snd (run_of description show w) in
  fst (run_of description show w) = Raise e
  /\ requests final
     = requests w ++ [completion_request (history1 description);
                      completion_request (history2 description b1)]
  /\ files final = files w
  /\ messages final
     = [system_message; user1 description;
        Message assistant (create_clean_assistant_response b1); user2]
  /\ exists out, stdout final = stdout w ++ out /\ In b1 out.
Proof.
  intros H1 X1 H2.
  destruct (run_fails_at_step2 completion open_write str_lower isalnum
              description show w r1 b1 e H1 X1 H2) as (out & E & Hin).
  cbv zeta. rewrite E. cbn [fst snd messages stdout requests files].
  repeat split. exists out. split; [reflexivity | exact Hin].
Qed.

(** C8: if writing the final file raises, at [open] or at [write], the
    run still returns the three extracted code strings, and the failure
    shows only as the warning line printed. *)
Theorem file_write_failure_is_a_warning description show w r1 r2 r3 b1 b2 b3 e :
  completion (length (requests w))
    (completion_request (history1 description)) = Ok r1 ->
  extract_code_block r1 = Ok b1 ->
  completion (length (requests w) + 1)
    (completion_request (history2 description b1)) = Ok r2 ->
  extract_code_block r2 = Ok b2 ->
  completion (length (requests w) + 2)
    (completion_request (history3 description b1 b2)) = Ok r3 ->
  extract_code_block r3 = Ok b3 ->
  (open_write (generate_filename str_lower isalnum description) b3 = OpenFailed e
   \/ exists partial,
        open_write (generate_filename str_lower isalnum description) b3
        = WriteFailed e partial) ->
  let final := snd (run_of description show w) in
  fst (run_of description show w) = Ok (b1, b2, b3)
  /\ exists out, stdout final = stdout w ++ out /\ In (save_warning e) out.
Proof.
  intros H1 X1 H2 X2 H3 X3 Hw.
  destruct (run_completed completion open_write str_lower isalnum
              description show w r1 r2 r3 b1 b2 b3 H1 X1 H2 X2 H3 X3)
    as (out & fs & E & _ & Hfs).
  cbv zeta. rewrite E. cbn [fst snd stdout].
  split; [reflexivity|]. exists out. split; [reflexivity|].
  destruct Hw as [Hw | [partial Hw]]; rewrite Hw in Hfs; apply Hfs.
Qed.

End DriverClaims.

(** ** Sample runs of the driver *)

Section SampleRuns.

Import Sample.

Local Abbreviation full_run :=
  (create_python_function answers disk_ok ascii_lower ascii_isalnum
     description true start).

Local Abbreviation broken_run :=
  (create_python_function fails_second disk_ok ascii_lower ascii_isalnum
     description false start).

Local Abbreviation unsaved_run :=
  (create_python_function answers disk_readonly ascii_lower ascii_isalnum
     description false start).

Example sample_extracts :
  extract_code_block reply1 = Ok code1
  /\ extract_code_block reply2 = Ok code2
  /\ extract_code_block reply3 = Ok code3.
Proof. vm_compute. repeat split. Qed.

Example sample_file_saved :
  files (snd full_run) !! lit "adds_two_numbers_complete.py" = Some code3.
Proof. vm_compute. reflexivity. Qed.

(** C1, as stated, fails: a completed run leaves 6 messages in the
    history, not 7; the last one is the user turn of step 3. *)
Lemma six_messages_after_completed_run :
  fst full_run = Ok (code1, code2, code3)
  /\ length (messages (snd full_run)) = 6
  /\ length (messages (snd full_run)) <> 7
  /\ List.map msg_role (messages (snd full_run))
     = [system; user; assistant; user; assistant; user].
Proof. vm_compute. repeat split; discriminate. Qed.

Lemma completed_run_history_witness :
  fst full_run = Ok (code1, code2, code3)
  /\ length (messages (snd full_run)) = 6.
Proof.
  destruct (completed_run_history answers disk_ok ascii_lower ascii_isalnum
              description true start reply1 reply2 reply3 code1 code2 code3)
    as (Hres & Hlen & _);
    [reflexivity | vm_compute; reflexivity
    |reflexivity | vm_compute; reflexivity
    |reflexivity | vm_compute; reflexivity |].
  split; [exact Hres | exact Hlen].
Defined.

(** C2, as stated, fails at step 3: no assistant turn is appended for it,
    the code extracted from the third response is nowhere in the
    history. *)
Lemma step3_appends_no_assistant_turn :
  fst full_run = Ok (code1, code2, code3)
  /\ length (assistant_turns (messages (snd full_run))) = 2
  /\ ~ In (Message assistant (create_clean_assistant_response code3))
          (messages (snd full_run)).
Proof.
  vm_compute. repeat split.
  intros H. repeat (destruct H as [H | H]; [discriminate H|]). exact H.
Qed.

Lemma assistant_turns_are_normalized_witness :
  assistant_turns (messages (snd full_run))
  = [Message assistant (create_clean_assistant_response code1);
     Message assistant (create_clean_assistant_response code2)].
Proof.
  destruct (assistant_turns_are_normalized answers disk_ok ascii_lower
              ascii_isalnum description true start
              reply1 reply2 reply3 code1 code2 code3)
    as (Hturns & _);
    [reflexivity | vm_compute; reflexivity
    |reflexivity | vm_compute; reflexivity
    |reflexivity | vm_compute; reflexivity |].
  exact Hturns.
Defined.

Lemma completion_failure_at_step2_witness :
  fst broken_run = Raise timed_out
  /\ length (requests (snd broken_run)) = 2
  /\ files (snd broken_run) = files start.
Proof.
  destruct (completion_failure_at_step2 fails_second disk_ok ascii_lower
              ascii_isalnum description false start reply1 code1 timed_out)
    as (Hres & Hreq & Hfiles & _);
    [reflexivity | vm_compute; reflexivity | reflexivity |].
  split; [exact Hres|]. split; [|exact Hfiles].
  now rewrite Hreq.
Defined.

Lemma file_write_failure_is_a_warning_witness :
  fst unsaved_run = Ok (code1, code2, code3)
  /\ exists out, stdout (snd unsaved_run) = stdout start ++ out
                 /\ In (save_warning denied) out.
Proof.
  apply (file_write_failure_is_a_warning answers disk_readonly ascii_lower
           ascii_isalnum description false start
           reply1 reply2 reply3 code1 code2 code3 denied);
    [reflexivity | vm_compute; reflexivity
    |reflexivity | vm_compute; reflexivity
    |reflexivity | vm_compute; reflexivity
    |left; reflexivity].
Defined.

End SampleRuns.

(** ** More on the code extractor *)

Section ExtractMore.

Implicit Types (a body rest code response : str) (c : char).

Lemma startswith_fence_straddle c a r :
  startswith (c :: a) fence = false ->
  List.last (c :: a) 0%N <> 96%N ->
  startswith ((c :: a) ++ fence ++ r) fence = false.
Proof.
  intros Hst Hlast.
  destruct a as [|c2 [|c3 a]]; cbn [List.last] in Hlast.
  - cbn. destruct (N.eqb_spec c 96); [congruence | reflexivity].
  - cbn. destruct (N.eqb_spec c2 96); [congruence|].
    now rewrite andb_false_r.
  - exact Hst.
Qed.

(** A text without a fence and not ending in a backtick, followed by a
    fence, is the first part of the split. *)
Lemma split_at_first_fence a r :
  str_in fence a = false ->
  List.last a 0%N <> 96%N ->
  split_skip fence 0 (a ++ fence ++ r) = a :: split_skip fence 0 r.
Proof.
  induction a as [|c a IH]; intros Hin Hlast; [reflexivity|].
  cbn [str_in] in Hin. apply orb_false_iff in Hin as [Hst Hin].
  pose proof (startswith_fence_straddle c a r Hst Hlast) as Hno.
  change ((c :: a) ++ fence ++ r) with (c :: (a ++ fence ++ r)) in *.
  cbn [split_skip]. rewrite Hno, IH; [reflexivity | exact Hin |].
  destruct a; [discriminate | exact Hlast].
Qed.

(** X1: in a response [a ``` body ``` b], where [a] and [body] hold no
    fence and do not end in a backtick, the extractor returns the stripped
    body, less a leading [python] tag; the text before the first fence and
    everything behind the second one play no part. *)
Theorem extract_paired_fence a body b :
  str_in fence a = false -> List.last a 0%N <> 96%N ->
  str_in fence body = false -> List.last body 0%N <> 96%N ->
  extract_code_block (a ++ fence ++ body ++ fence ++ b)
  = Ok (if startswith (strip body) python
        then strip (drop 6 (strip body))
        else strip body).
Proof.
  intros Ha La Hb Lb. unfold extract_code_block.
  assert (Hin : str_in fence (a ++ fence ++ body ++ fence ++ b) = true)
    by (apply str_in_iff; eauto).
  rewrite Hin. unfold split.
  rewrite (split_at_first_fence a _ Ha La), (split_at_first_fence body _ Hb Lb).
  pose proof (split_skip_nonnil fence 0 b) as Hn.
  destruct (split_skip fence 0 b); [congruence|].
  cbn [length Nat.leb index lookup list_lookup obind].
  now destruct (startswith (strip body) python).
Qed.

Lemma extract_paired_fence_witness :
  extract_code_block
    (lit "Sure: " ++ fence ++ (lit "python" ++ [nl] ++ lit "x = 1" ++ [nl])
     ++ fence ++ lit " and ```more``` text")
  = Ok (lit "x = 1").
Proof.
  apply (extract_paired_fence (lit "Sure: ")
           (lit "python" ++ [nl] ++ lit "x = 1" ++ [nl])
           (lit " and ```more``` text"));
    vm_compute; congruence.
Defined.

Lemma dropwhile_head f s c rest : dropwhile f s = c :: rest -> f c = false.
Proof.
  induction s as [|x s IH]; simpl; [discriminate|].
  destruct (f x) eqn:E; [exact IH | now intros [= <- _]].
Qed.

Lemma rdropwhile_last f s init c : rdropwhile f s = init ++ [c] -> f c = false.
Proof.
  unfold rdropwhile. intros H.
  apply (f_equal (@rev char)) in H. rewrite rev_involutive, rev_unit in H.
  exact (dropwhile_head f _ _ _ H).
Qed.

(** X2: whatever the response, the extracted code neither begins nor ends
    with a whitespace character. *)
Theorem extracted_code_has_no_outer_whitespace response :
  exists code,
    extract_code_block response = Ok code
    /\ (forall c rest, code = c :: rest -> isspace c = false)
    /\ (forall init c, code = init ++ [c] -> isspace c = false).
Proof.
  destruct (extract_total response) as [code Hx]. exists code.
  destruct (extract_clean response code Hx) as [Hstrip _].
  split; [exact Hx|]. split.
  - intros c rest Hc. rewrite strip_comm in Hstrip. unfold lstrip in Hstrip.
    rewrite Hc in Hstrip at 2. exact (dropwhile_head _ _ _ _ Hstrip).
  - intros init c Hc. unfold strip, rstrip in Hstrip.
    rewrite Hc in Hstrip at 2. exact (rdropwhile_last _ _ _ _ Hstrip).
Qed.

(** X3: when the response holds a paired fence (its split has at least
    three parts), the extracted code contains no triple backtick. *)
Theorem extracted_block_has_no_fence response :
  3 <= length (split response fence) ->
  exists code,
    extract_code_block response = Ok code /\ str_in fence code = false.
Proof.
  intros Hlen. destruct (extract_total response) as [code Hx]. exists code.
  split; [exact Hx|]. apply (extract_clean response code Hx). lia.
Qed.

Lemma extracted_block_has_no_fence_witness :
  exists code,
    extract_code_block (lit "```a```b```c```") = Ok code
    /\ str_in fence code = false.
Proof.
  apply (extracted_block_has_no_fence (lit "```a```b```c```")).
  vm_compute. lia.
Defined.

End ExtractMore.

(** ** File names *)

Section FilenameFacts.

Variable str_lower : str -> str.
Variable isalnum : char -> bool.

Implicit Types (description s : str) (c : char) (f : char -> bool).

Local Abbreviation filename_of description :=
  (generate_filename str_lower isalnum description).

Lemma dropwhile_length f s : length (dropwhile f s) <= length s.
Proof.
  destruct (dropwhile_split f s) as [l [Hl _]].
  rewrite Hl at 2. rewrite length_app. lia.
Qed.

Lemma rdropwhile_length f s : length (rdropwhile f s) <= length s.
Proof.
  destruct (rdropwhile_split f s) as [r [Hr _]].
  rewrite Hr at 2. rewrite length_app. lia.
Qed.

Lemma strip_chars_length chars s : length (strip_chars chars s) <= length s.
Proof.
  unfold strip_chars.
  etransitivity; [apply rdropwhile_length | apply dropwhile_length].
Qed.

Lemma strip_chars_infix chars s :
  exists l r, s = l ++ strip_chars chars s ++ r.
Proof.
  unfold strip_chars. cbv zeta. set (f := fun c : N => existsb (N.eqb c) chars).
  destruct (dropwhile_split f s) as [l [Hl _]].
  destruct (rdropwhile_split f (dropwhile f s)) as [r [Hr _]].
  exists l, r. now rewrite <- Hr.
Qed.

Lemma dropwhile_all f s : forallb f s = true -> dropwhile f s = [].
Proof.
  induction s as [|c s IH]; simpl; [reflexivity|].
  intros H. apply andb_true_iff in H as [Hc Hs]. now rewrite Hc, IH.
Qed.

(** X4: the file name is a stem of at most 40 characters followed by
    [_complete.py], so it is never empty and never longer than 52
    characters, however long the description. *)
Theorem generate_filename_shape description :
  exists stem,
    filename_of description = stem ++ lit "_complete.py"
    /\ length stem <= 40
    /\ length (filename_of description) <= 52.
Proof.
  unfold generate_filename. cbv zeta.
  eexists. split; [reflexivity|].
  assert (forall s, length (strip_chars (lit "_") (take 40 s)) <= 40) as Hlen.
  { intros s. etransitivity; [apply strip_chars_length|].
    rewrite length_take. lia. }
  split; [apply Hlen|].
  rewrite length_app. specialize (Hlen (replace_char 32%N 95%N
    (List.filter (fun c => isalnum c || isspace c) (str_lower description)))).
  change (length (lit "_complete.py")) with 12. lia.
Qed.

(** X5: every character of the stem is an underscore, or a character other
    than the space that is alphanumeric or whitespace (a tab or a newline
    of the description is kept); the stem neither begins nor ends with an
    underscore. *)
Theorem generate_filename_stem description :
  exists stem,
    filename_of description = stem ++ lit "_complete.py"
    /\ Forall (fun c => c = 95%N
                        \/ (c <> 32%N
                            /\ (isalnum c = true \/ isspace c = true))) stem
    /\ (forall c rest, stem = c :: rest -> c <> 95%N)
    /\ (forall init c, stem = init ++ [c] -> c <> 95%N).
Proof.
  unfold generate_filename. cbv zeta.
  set (kept := List.filter (fun c => isalnum c || isspace c)
                 (str_lower description)).
  set (cut := take 40 (replace_char 32%N 95%N kept)).
  exists (strip_chars (lit "_") cut). split; [reflexivity|]. split.
  - assert (Hcut : Forall (fun c => c = 95%N
                     \/ (c <> 32%N /\ (isalnum c = true \/ isspace c = true)))
                     cut).
    { unfold cut. apply Forall_take. unfold replace_char.
      apply List.Forall_map. apply List.Forall_forall. intros c Hc.
      apply List.filter_In in Hc as [_ Hc]. apply orb_true_iff in Hc.
      destruct (N.eqb_spec c 32); [now left | right; split; assumption]. }
    destruct (strip_chars_infix (lit "_") cut) as (l & r & Hlr).
    rewrite Hlr in Hcut.
    apply Forall_app in Hcut as [_ Hcut]. now apply Forall_app in Hcut as [Hcut _].
  - unfold strip_chars. cbv zeta.
    set (f := fun c : N => existsb (N.eqb c) (lit "_")).
    assert (Hf : forall c, f c = false -> c <> 95%N).
    { intros c Hc ->. discriminate. }
    split.
    + intros c rest Hc. rewrite <- drop_rdrop_comm in Hc.
      exact (Hf c (dropwhile_head f _ _ _ Hc)).
    + intros init c Hc. exact (Hf c (rdropwhile_last f _ _ _ Hc)).
Qed.

(** X6: when nothing but spaces survives the filter (an empty description,
    one of blanks, punctuation or underscores only), the file name is just
    [_complete.py]. *)
Theorem generate_filename_degenerate description :
  forallb (N.eqb 32%N)
    (List.filter (fun c => isalnum c || isspace c) (str_lower description))
  = true ->
  filename_of description = lit "_complete.py".
Proof.
  intros H. unfold generate_filename, strip_chars. cbv zeta.
  set (kept := List.filter _ _) in *.
  assert (Hall : forallb (fun c : N => existsb (N.eqb c) (lit "_"))
                   (take 40 (replace_char 32%N 95%N kept)) = true).
  { apply forallb_forall. intros c Hc.
    apply list_elem_of_In, elem_of_take in Hc as (i & Hc & _).
    apply list_elem_of_lookup_2, list_elem_of_In in Hc.
    unfold replace_char in Hc. apply List.in_map_iff in Hc as (x & <- & Hx).
    rewrite forallb_forall in H. apply H in Hx. apply N.eqb_eq in Hx as <-.
    reflexivity. }
  now rewrite (dropwhile_all _ _ Hall).
Qed.

End FilenameFacts.

Lemma generate_filename_degenerate_witness :
  generate_filename Sample.ascii_lower Sample.ascii_isalnum (lit " ?! _ ")
  = lit "_complete.py".
Proof.
  apply (generate_filename_degenerate Sample.ascii_lower Sample.ascii_isalnum
           (lit " ?! _ ")).
  vm_compute. reflexivity.
Defined.

(** ** Saving, and runs as a whole *)

Section RunFacts.

Variable completion : nat -> request -> outcome str.
Variable open_write : str -> str -> write_outcome.
Variable str_lower : str -> str.
Variable isalnum : char -> bool.

Local Arguments lit : simpl never.
Local Arguments create_clean_assistant_response : simpl never.
Local Arguments completion_request : simpl never.

Local Abbreviation filename_of description :=
  (generate_filename str_lower isalnum description).

Local Abbreviation save code description w :=
  (save_function_to_file open_write str_lower isalnum code description w).

Local Abbreviation run_of description show w :=
  (create_python_function completion open_write str_lower isalnum
     description show w).

Ltac exec :=
  cbv beta iota zeta delta
    [bind print append_message get_messages set_messages generate_response
     show_response when lift ret try_except write_file];
  cbn [messages stdout requests files].

Ltac indices :=
  cbn [messages stdout requests files app];
  rewrite ?length_app; cbn [length]; rewrite <- ?Nat.add_assoc; cbn [Nat.add].

(** X7: when the write succeeds, [save_function_to_file] returns the
    generated name, the file of that name then holds the code exactly
    (whatever it held before), every other file is as it was, and nothing
    is printed. *)
Theorem save_writes_the_code code description w :
  open_write (filename_of description) code = Written ->
  fst (save code description w) = Ok (Some (filename_of description))
  /\ files (snd (save code description w)) !! filename_of description = Some code
  /\ (forall other, other <> filename_of description ->
        files (snd (save code description w)) !! other = files w !! other)
  /\ stdout (snd (save code description w)) = stdout w.
Proof.
  intros Hw. unfold save_function_to_file. exec. rewrite Hw. exec.
  cbn [fst snd files stdout]. repeat split.
  - apply lookup_insert_eq.
  - intros other Hne. now apply lookup_insert_ne.
Qed.


Lemma step1_raise description show w e :
  completion (length (requests w))
    (completion_request (messages w ++ [user1 description])) = Raise e ->
  exists out,
    step1 completion description show w
    = (Raise e,
       World (messages w ++ [user1 description]) (stdout w ++ out)
             (requests w ++ [completion_request (messages w ++ [user1 description])])
             (files w)).
Proof.
  intros Hc. unfold step1. exec. rewrite Hc.
  rewrite <- !app_assoc; cbn [app]. eexists; reflexivity.
Qed.

Lemma step3_raise show w e :
  completion (length (requests w))
    (completion_request (messages w ++ [user3])) = Raise e ->
  exists out,
    step3 completion show w
    = (Raise e,
       World (messages w ++ [user3]) (stdout w ++ out)
             (requests w ++ [completion_request (messages w ++ [user3])])
             (files w)).
Proof.
  intros Hc. unfold step3. exec. rewrite Hc.
  rewrite <- !app_assoc; cbn [app]. eexists; reflexivity.
Qed.

Lemma run_fails_at_step1 description show w e :
  completion (length (requests w))
    (completion_request (history1 description)) = Raise e ->
  exists out,
    run_of description show w
    = (Raise e,
       World (history1 description) (stdout w ++ out)
             (requests w ++ [completion_request (history1 description)])
             (files w)).
Proof.
  intros H1. unfold create_python_function. exec.
  match goal with |- context [step1 _ _ _ ?W] =>
    destruct (step1_raise description show W e) as (o1 & E); [exact H1|] end.
  rewrite E. exec. cbn [messages stdout requests files app].
  rewrite <- !app_assoc. cbn [app]. eexists. reflexivity.
Qed.

Lemma run_fails_at_step3 description show w r1 b1 r2 b2 e :
  completion (length (requests w))
    (completion_request (history1 description)) = Ok r1 ->
  extract_code_block r1 = Ok b1 ->
  completion (length (requests w) + 1)
    (completion_request (history2 description b1)) = Ok r2 ->
  extract_code_block r2 = Ok b2 ->
  completion (length (requests w) + 2)
    (completion_request (history3 description b1 b2)) = Raise e ->
  exists out,
    run_of description show w
    = (Raise e,
       World (history3 description b1 b2) (stdout w ++ out)
             (requests w ++ [completion_request (history1 description);
                             completion_request (history2 description b1);
                             completion_request (history3 description b1 b2)])
             (files w))
    /\ In b1 out /\ In b2 out.
Proof.
  intros H1 X1 H2 X2 H3. unfold create_python_function. exec.
  match goal with |- context [step1 _ _ _ ?W] =>
    destruct (step1_run completion open_write str_lower description show W r1 b1) as (o1 & E & I1);
      [exact H1 | exact X1 |] end.
  rewrite E. exec. clear E.
  match goal with |- context [step2 _ _ ?W] =>
    destruct (step2_run completion open_write str_lower show W r2 b2) as (o2 & E & I2);
      [indices; exact H2 | exact X2 |] end.
  rewrite E. exec. clear E.
  match goal with |- context [step3 _ _ ?W] =>
    destruct (step3_raise show W e) as (o3 & E); [indices; exact H3|] end.
  rewrite E. exec. cbn [messages stdout requests files app].
  rewrite <- !app_assoc. cbn [app]. eexists. split; [reflexivity|].
  cbn [In]. rewrite !in_app_iff. tauto.
Qed.

(** X9: after a run in which the three calls succeed and the write
    succeeds, the file named after the description holds the code
    extracted at step 3, the third string returned, and every other file
    is as it was. *)
Theorem saved_file_holds_final_code description show w r1 r2 r3 b1 b2 b3 :
  completion (length (requests w))
    (completion_request (history1 description)) = Ok r1 ->
  extract_code_block r1 = Ok b1 ->
  completion (length (requests w) + 1)
    (completion_request (history2 description b1)) = Ok r2 ->
  extract_code_block r2 = Ok b2 ->
  completion (length (requests w) + 2)
    (completion_request (history3 description b1 b2)) = Ok r3 ->
  extract_code_block r3 = Ok b3 ->
  open_write (filename_of description) b3 = Written ->
  fst (run_of description show w) = Ok (b1, b2, b3)
  /\ files (snd (run_of description show w)) !! filename_of description = Some b3
  /\ (forall other, other <> filename_of description ->
        files (snd (run_of description show w)) !! other = files w !! other).
Proof.
  intros H1 X1 H2 X2 H3 X3 Hw.
  destruct (run_completed completion open_write str_lower isalnum
              description show w r1 r2 r3 b1 b2 b3 H1 X1 H2 X2 H3 X3)
    as (out & fs & E & _ & Hfs).
  rewrite Hw in Hfs. rewrite E. cbn [fst snd files]. subst fs.
  repeat split.
  - apply lookup_insert_eq.
  - intros other Hne. now apply lookup_insert_ne.
Qed.

Ltac split_calls description w :=
  let r1 := fresh "r1" in let b1 := fresh "b1" in
  let r2 := fresh "r2" in let b2 := fresh "b2" in
  let r3 := fresh "r3" in let b3 := fresh "b3" in
  let e := fresh "e" in
  destruct (completion (length (requests w))
              (completion_request (history1 description)))
    as [r1|e] eqn:H1;
  [ destruct (extract_total r1) as [b1 X1];
    destruct (completion (length (requests w) + 1)
                (completion_request (history2 description b1)))
      as [r2|e] eqn:H2;
    [ destruct (extract_total r2) as [b2 X2];
      destruct (completion (length (requests w) + 2)
                  (completion_request (history3 description b1 b2)))
        as [r3|e] eqn:H3;
      [ destruct (extract_total r3) as [b3 X3] | ]
    | ]
  | ].

(** X10: a run never makes more than three completion calls, and a run
    that returns has made exactly three. *)
Theorem run_makes_at_most_three_calls description show w :
  length (requests (snd (run_of description show w)))
  <= length (requests w) + 3
  /\ (forall result, fst (run_of description show w) = Ok result ->
        length (requests (snd (run_of description show w)))
        = length (requests w) + 3).
Proof.
  split_calls description w.
  - destruct (run_completed completion open_write str_lower isalnum
                description show w _ _ _ _ _ _ H1 X1 H2 X2 H3 X3)
      as (out & fs & E & _).
    rewrite E. cbn [fst snd requests]. rewrite length_app. cbn [length].
    split; [lia | reflexivity].
  - destruct (run_fails_at_step3 description show w _ _ _ _ _ H1 X1 H2 X2 H3)
      as (out & E & _).
    rewrite E. cbn [fst snd requests]. rewrite length_app. cbn [length].
    split; [lia | discriminate].
  - destruct (run_fails_at_step2 completion open_write str_lower isalnum
                description show w _ _ _ H1 X1 H2) as (out & E & _).
    rewrite E. cbn [fst snd requests]. rewrite length_app. cbn [length].
    split; [lia | discriminate].
  - destruct (run_fails_at_step1 description show w _ H1) as (out & E).
    rewrite E. cbn [fst snd requests]. rewrite length_app. cbn [length].
    split; [lia | discriminate].
Qed.

(** X12: if the third completion call raises, the run ends with that
    exception after exactly three calls; the code extracted at steps 1
    and 2 was printed and is in the history, which ends with the user
    turn of step 3; no file is written. *)
Theorem completion_failure_at_step3 description show w r1 b1 r2 b2 e :
  completion (length (requests w))
    (completion_request (history1 description)) = Ok r1 ->
  extract_code_block r1 = Ok b1 ->
  completion (length (requests w) + 1)
    (completion_request (history2 description b1)) = Ok r2 ->
  extract_code_block r2 = Ok b2 ->
  completion (length (requests w) + 2)
    (completion_request (history3 description b1 b2)) = Raise e ->
  fst (run_of description show w) = Raise e
  /\ messages (snd (run_of description show w))
     = [system_message; user1 description;
        Message assistant (create_clean_assistant_response b1); user2;
        Message assistant (create_clean_assistant_response b2); user3]
  /\ length (requests (snd (run_of description show w)))
     = length (requests w) + 3
  /\ files (snd (run_of description show w)) = files w
  /\ exists out, stdout (snd (run_of description show w)) = stdout w ++ out
                 /\ In b1 out /\ In b2 out.
Proof.
  intros H1 X1 H2 X2 H3.
  destruct (run_fails_at_step3 description show w r1 b1 r2 b2 e
              H1 X1 H2 X2 H3) as (out & E & I1 & I2).
  rewrite E. cbn [fst snd messages stdout requests files].
  rewrite length_app. repeat split. eauto.
Qed.

(** X13: if the first completion call raises, the run ends with that
    exception after that one call, with only the system message and the
    first user turn, which quotes the description, in the history; no
    file is written. *)
Theorem completion_failure_at_step1 description show w e :
  completion (length (requests w))
    (completion_request (history1 description)) = Raise e ->
  fst (run_of description show w) = Raise e
  /\ messages (snd (run_of description show w))
     = [system_message; user1 description]
  /\ requests (snd (run_of description show w))
     = requests w ++ [completion_request [system_message; user1 description]]
  /\ files (snd (run_of description show w)) = files w.
Proof.
  intros H1. destruct (run_fails_at_step1 description show w e H1) as (out & E).
  rewrite E. repeat split.
Qed.

(** *** [main] *)

Local Abbreviation main_of stdin w :=
  (main completion open_write str_lower isalnum stdin w).



Ltac split_pair M :=
  let Mo := fresh in let Mw := fresh in
  pose proof (f_equal fst M) as Mo; pose proof (f_equal snd M) as Mw;
  cbn [fst snd] in Mo, Mw; clear M; subst.

Ltac exec_main M :=
  cbn [bind print input try_except messages stdout requests files fst snd] in M;
  unfold print in M;
  cbn [bind messages stdout requests files fst snd] in M.

(** X14: when the first line typed is empty or blank, [main] asks for a
    description and returns: no completion call is made, no file is
    written, and the second question is never asked. *)
Theorem main_rejects_blank_description line rest w :
  strip line = [] ->
  fst (main_of (line :: rest) w) = Ok tt
  /\ requests (snd (main_of (line :: rest) w)) = requests w
  /\ files (snd (main_of (line :: rest) w)) = files w
  /\ exists out,
       stdout (snd (main_of (line :: rest) w))
       = stdout w ++ out ++ [lit "Your description: ";
                             10060%N :: lit " Please provide a function description!"].
Proof.
  intros Hblank.
  destruct (main_of (line :: rest) w) as [o wf] eqn:M. unfold main in M.
  exec_main M. rewrite Hblank in M. exec_main M. split_pair M.
  cbn [fst snd messages stdout requests files].
  repeat split. rewrite <- !app_assoc. cbn [app].
  eexists (_ :: _ :: _ :: _ :: _ :: _ :: _ :: _ :: _ :: _ :: [_]).
  reflexivity.
Qed.


End RunFacts.

(** ** Sample runs for the further properties *)

Section SampleRuns2.

Import Sample Sample2.

Lemma save_writes_the_code_witness :
  fst (save_function_to_file disk_ok ascii_lower ascii_isalnum
         code3 description start)
  = Ok (Some (lit "adds_two_numbers_complete.py")).
Proof.
  destruct (save_writes_the_code disk_ok ascii_lower ascii_isalnum
              code3 description start) as [H _]; [reflexivity|].
  exact H.
Defined.

Lemma saved_file_holds_final_code_witness :
  files (snd (create_python_function answers disk_ok ascii_lower ascii_isalnum
                description false start))
    !! generate_filename ascii_lower ascii_isalnum description
  = Some code3.
Proof.
  destruct (saved_file_holds_final_code answers disk_ok ascii_lower
              ascii_isalnum description false start
              reply1 reply2 reply3 code1 code2 code3)
    as (_ & H & _);
    [reflexivity | vm_compute; reflexivity
    |reflexivity | vm_compute; reflexivity
    |reflexivity | vm_compute; reflexivity
    |reflexivity |].
  exact H.
Defined.

Lemma completion_failure_at_step3_witness :
  fst (create_python_function fails_third disk_ok ascii_lower ascii_isalnum
         description true start) = Raise timed_out
  /\ files (snd (create_python_function fails_third disk_ok ascii_lower
                   ascii_isalnum description true start)) = files start.
Proof.
  destruct (completion_failure_at_step3 fails_third disk_ok ascii_lower
              ascii_isalnum description true start
              reply1 code1 reply2 code2 timed_out)
    as (Hres & _ & _ & Hfiles & _);
    [reflexivity | vm_compute; reflexivity
    |reflexivity | vm_compute; reflexivity
    |reflexivity |].
  split; [exact Hres | exact Hfiles].
Defined.

Lemma completion_failure_at_step1_witness :
  fst (create_python_function fails_first disk_ok ascii_lower ascii_isalnum
         description true start) = Raise timed_out
  /\ messages (snd (create_python_function fails_first disk_ok ascii_lower
                      ascii_isalnum description true start))
     = [system_message; user1 description].
Proof.
  destruct (completion_failure_at_step1 fails_first disk_ok ascii_lower
              ascii_isalnum description true start timed_out)
    as (Hres & Hmsgs & _); [reflexivity|].
  split; [exact Hres | exact Hmsgs].
Defined.

Lemma main_rejects_blank_description_witness :
  fst (main answers disk_ok ascii_lower ascii_isalnum typed_blank start) = Ok tt
  /\ requests (snd (main answers disk_ok ascii_lower ascii_isalnum
                      typed_blank start)) = [].
Proof.
  destruct (main_rejects_blank_description answers disk_ok ascii_lower
              ascii_isalnum (lit "   ") [lit "y"] start)
    as (Hres & Hreq & _); [vm_compute; reflexivity|].
  split; [exact Hres | exact Hreq].
Defined.


Example main_sample_last_line :
  List.last
    (stdout (snd (main answers disk_readonly ascii_lower ascii_isalnum
                    typed start))) []
  = lit "  " ++ 9989%N :: lit " Saved to file".
Proof. vm_compute. reflexivity. Qed.

End SampleRuns2.

(** ** Trimmed results of the extractor *)

Section TrimFacts.

Implicit Types (a body b rest code response s t : str) (c : char)
  (f : char -> bool).

Lemma dropwhile_app_all f l s :
  forallb f l = true -> dropwhile f (l ++ s) = dropwhile f s.
Proof.
  induction l as [|c l IH]; [reflexivity|]. simpl.
  intros H. apply andb_true_iff in H as [Hc Hl]. now rewrite Hc, IH.
Qed.

Lemma rdropwhile_app_all f s r :
  forallb f r = true -> rdropwhile f (s ++ r) = rdropwhile f s.
Proof.
  intros H. unfold rdropwhile. rewrite rev_app_distr.
  now rewrite dropwhile_app_all by now apply forallb_rev_true.
Qed.

Lemma rdropwhile_keeps f init c :
  f c = false -> rdropwhile f (init ++ [c]) = init ++ [c].
Proof.
  intros H. unfold rdropwhile. rewrite rev_unit. simpl. rewrite H.
  simpl. now rewrite rev_involutive.
Qed.

(** [strip] computes the trimmed text... *)
Lemma strip_trimmed s : trimmed_of s (strip s).
Proof.
  split; [apply strip_surround|]. split.
  - intros c rest H. rewrite strip_comm in H.
    exact (dropwhile_head isspace _ _ _ H).
  - intros init c H. exact (rdropwhile_last isspace _ _ _ H).
Qed.

(** ... and the trimmed text is unique. *)
Lemma trimmed_unique s t : trimmed_of s t -> strip s = t.
Proof.
  intros ((l & r & -> & Hl & Hr) & Hhead & Hlast).
  unfold strip, lstrip, rstrip. rewrite (dropwhile_app_all _ _ _ Hl).
  destruct t as [|c t].
  - cbn [app]. rewrite <- (app_nil_r r) at 1.
    now rewrite (dropwhile_app_all _ _ _ Hr).
  - pose proof (Hhead c t eq_refl) as Hc.
    change (dropwhile isspace ((c :: t) ++ r))
      with (dropwhile isspace (c :: (t ++ r))).
    cbn [dropwhile]. rewrite Hc.
    change (c :: (t ++ r)) with ((c :: t) ++ r).
    rewrite (rdropwhile_app_all _ _ _ Hr).
    destruct (exists_last (l := c :: t)) as [init [x Hx]]; [discriminate|].
    rewrite Hx. apply rdropwhile_keeps. exact (Hlast init x Hx).
Qed.

Lemma startswith_fence_two_backticks c a r :
  startswith ((c :: a) ++ fence ++ r) fence
  = startswith ((c :: a) ++ [96; 96]%N) fence.
Proof. destruct a as [|c2 [|c3 a]]; reflexivity. Qed.

(** When no fence starts inside [a], also not one that runs into the
    fence behind it, [a] is the first part of the split. *)
Lemma split_at_leftmost_fence a r :
  str_in fence (a ++ [96; 96]%N) = false ->
  split_skip fence 0 (a ++ fence ++ r) = a :: split_skip fence 0 r.
Proof.
  induction a as [|c a IH]; intros H; [reflexivity|].
  change ((c :: a) ++ [96; 96]%N) with (c :: (a ++ [96; 96]%N)) in H.
  cbn [str_in] in H. apply orb_false_iff in H as [Hst Hin].
  assert (Hno : startswith (c :: (a ++ fence ++ r)) fence = false).
  { etransitivity; [apply (startswith_fence_two_backticks c a r) | exact Hst]. }
  change ((c :: a) ++ fence ++ r) with (c :: (a ++ fence ++ r)).
  cbn [split_skip]. now rewrite Hno, (IH Hin).
Qed.

(** C5, amended: let the input hold a paired fence, [a] being the text
    before the first fence and [body] the content between the first and
    the second.  When the trimmed content begins with the tag [python],
    followed by whitespace or by nothing, the extractor removes the tag
    and returns the rest trimmed of surrounding whitespace.  When the
    trimmed content does not begin with [python], it is returned as it
    is, a leading name of another language included. *)
Theorem only_python_tag_is_stripped a body b :
  str_in fence (a ++ [96; 96]%N) = false ->
  str_in fence (body ++ [96; 96]%N) = false ->
  (forall rest code,
     trimmed_of body (python ++ rest) ->
     rest = [] \/ (exists c rest', rest = c :: rest' /\ isspace c = true) ->
     trimmed_of rest code ->
     extract_code_block (a ++ fence ++ body ++ fence ++ b) = Ok code)
  /\ (forall code,
        trimmed_of body code ->
        startswith code python = false ->
        extract_code_block (a ++ fence ++ body ++ fence ++ b) = Ok code).
Proof.
  intros Ha Hb.
  assert (Hrun : extract_code_block (a ++ fence ++ body ++ fence ++ b)
                 = if startswith (strip body) python
                   then Ok (strip (drop 6 (strip body)))
                   else Ok (strip body)).
  { unfold extract_code_block.
    assert (Hin : str_in fence (a ++ fence ++ body ++ fence ++ b) = true)
      by (apply str_in_iff; eauto).
    rewrite Hin. unfold split.
    rewrite (split_at_leftmost_fence a _ Ha), (split_at_leftmost_fence body _ Hb).
    pose proof (split_skip_nonnil fence 0 b) as Hn.
    destruct (split_skip fence 0 b); [congruence|]. reflexivity. }
  rewrite Hrun. split.
  - intros rest code Hbody _ Hrest.
    rewrite (trimmed_unique _ _ Hbody), startswith_self_app.
    change (drop 6 (python ++ rest)) with rest.
    now rewrite (trimmed_unique _ _ Hrest).
  - intros code Hbody Hno.
    now rewrite (trimmed_unique _ _ Hbody), Hno.
Qed.

Lemma only_python_tag_is_stripped_witness :
  extract_code_block
    (lit "Here: " ++ fence ++ (lit " python" ++ [nl] ++ lit "  x = 1 " ++ [nl])
     ++ fence ++ lit " and ```more```")
  = Ok (lit "x = 1").
Proof.
  destruct (only_python_tag_is_stripped (lit "Here: ")
              (lit " python" ++ [nl] ++ lit "  x = 1 " ++ [nl])
              (lit " and ```more```")) as [Htag _];
    [vm_compute; reflexivity | vm_compute; reflexivity |].
  apply (Htag (nl :: lit "  x = 1")).
  - exact (strip_trimmed (lit " python" ++ [nl] ++ lit "  x = 1 " ++ [nl])).
  - right. exists nl, (lit "  x = 1"). split; reflexivity.
  - exact (strip_trimmed (nl :: lit "  x = 1")).
Defined.

(** C6: for every input without a triple backtick the extractor raises
    nothing and returns the text trimmed of surrounding whitespace: the
    text less the whitespace at its two ends, unchanged in between. *)
Theorem no_fence_returns_stripped_text response :
  str_in fence response = false ->
  exists code,
    extract_code_block response = Ok code
    /\ trimmed_of response code
    /\ code = strip response.
Proof.
  intros H. exists (strip response). unfold extract_code_block. rewrite H.
  split; [reflexivity|]. split; [apply strip_trimmed | reflexivity].
Qed.

Lemma no_fence_returns_stripped_text_witness :
  extract_code_block (lit "  def f(): pass " ++ [nl]) = Ok (lit "def f(): pass").
Proof.
  destruct (no_fence_returns_stripped_text (lit "  def f(): pass " ++ [nl]))
    as (code & Hrun & _ & Hcode); [vm_compute; reflexivity|].
  rewrite Hrun, Hcode. vm_compute. reflexivity.
Defined.

(** C10: for every input whose split on the triple backtick gives exactly
    two parts, the extractor takes the fallback and returns the whole text
    trimmed of surrounding whitespace, the lone fence still in it. *)
Theorem lone_fence_falls_back response :
  length (split response fence) = 2 ->
  exists code,
    extract_code_block response = Ok code
    /\ trimmed_of response code
    /\ str_in fence code = true
    /\ code = strip response.
Proof.
  intros Hlen.
  assert (Hin : str_in fence response = true).
  { destruct (str_in fence response) eqn:E; [reflexivity|].
    rewrite (split_absent fence response E) in Hlen. discriminate. }
  exists (strip response). unfold extract_code_block. rewrite Hin, Hlen.
  split; [reflexivity|]. split; [apply strip_trimmed|].
  split; [now apply strip_keeps_fence | reflexivity].
Qed.

Lemma lone_fence_falls_back_witness :
  extract_code_block (lit " ```python" ++ [nl] ++ lit "def f(): pass ")
  = Ok (lit "```python" ++ [nl] ++ lit "def f(): pass").
Proof.
  destruct (lone_fence_falls_back
              (lit " ```python" ++ [nl] ++ lit "def f(): pass "))
    as (code & Hrun & _ & _ & Hcode); [vm_compute; reflexivity|].
  rewrite Hrun, Hcode. vm_compute. reflexivity.
Defined.

End TrimFacts.
